(** * The REST client of the Flow Go SDK (client/http/client.go)

    A shallow embedding of [Client] and of the [handler] interface it is
    built on.  Every method of [Client] is a program that invokes the
    handler, tests the returned [error] against [nil] and converts the
    reply; the embedding keeps that shape.

    - A Go pointer [*T] is an [option T], [None] being [nil].
    - The Go [error] interface is an [option] as well: [None] is [nil].
    - A Go result pair [(T, error)] is a Rocq pair, with both components
      present exactly as in Go; the client decides on [err != nil].
    - A slice [[]T] is a [list T]; the [nil] slice is the empty list (the
      client only ever passes slices on or takes their length).
    - [uint64] heights are numbers of type [N]; the client does no
      arithmetic on them, so no wrap-around is involved.
    - A run-time panic (explicit [panic], index out of range, nil
      dereference) ends the program with [Panic]; nothing is returned.
    - The handler is stateful (it talks to the network), so a handler
      implementation threads a state of its own choosing. *)

From Stdlib Require Import String Ascii NArith.
From stdpp Require Import base option list strings pretty.

Local Open Scope string_scope.
Local Open Scope list_scope.

(** ** Go values *)

(** [*T]: a pointer is either [nil] or points to a value. *)
Definition ptr (A : Type) : Type := option A.

(** [fmt.Sprintf("%d", n)] for an unsigned [n]: the decimal numeral. *)
Definition Sprintf_d (n : N) : string := pretty n.

(** client.go, line 33. *)
Definition SEALED_HEIGHT : string := "sealed".

(** Messages of the Go runtime for the two faults the client can hit. *)
Definition index_out_of_range (i len : nat) : string :=
  "runtime error: index out of range [" +:+ pretty i +:+ "] with length "
    +:+ pretty len.

Definition nil_dereference : string :=
  "runtime error: invalid memory address or nil pointer dereference".

(** ** What the client imports

    The wire models ([models.*], from flow-go), the domain types ([flow.*]),
    [cadence.Value], [context.Context] and the functions of package
    [convert] are not part of client.go.  They are taken as given: any
    types and any total functions of the signatures below. *)

Class Externals : Type := {
  context_Context : Type;
  (** the non-nil values of the [error] interface *)
  error_value : Type;

  flow_Identifier : Type;
  flow_Address : Type;
  flow_BlockHeader : Type;
  flow_Block : Type;
  flow_Collection : Type;
  flow_Transaction : Type;
  flow_TransactionResult : Type;
  flow_Account : Type;
  flow_BlockEvents : Type;
  flow_ExecutionResult : Type;
  cadence_Value : Type;

  models_Block : Type;
  models_Account : Type;
  models_Collection : Type;
  models_Transaction : Type;
  models_TransactionResult : Type;
  models_BlockEvents : Type;

  (** [flow.Identifier.String] and [flow.Address.String] *)
  Identifier_String : flow_Identifier -> string;
  Address_String : flow_Address -> string;
  (** field [BlockHeader] of [flow.Block] *)
  BlockHeader : flow_Block -> flow_BlockHeader;
  (** field [Result] of [models.Transaction], itself a pointer *)
  Result : models_Transaction -> ptr models_TransactionResult;

  (** package [convert] *)
  HTTPToBlock : ptr models_Block -> ptr flow_Block * option error_value;
  HTTPToCollection : ptr models_Collection -> ptr flow_Collection;
  TransactionToHTTP : flow_Transaction -> list Byte.byte * option error_value;
  HTTPToTransaction :
    ptr models_Transaction -> ptr flow_Transaction * option error_value;
  HTTPToTransactionResult :
    ptr models_TransactionResult ->
    ptr flow_TransactionResult * option error_value;
  HTTPToAccount : ptr models_Account -> ptr flow_Account * option error_value;
  CadenceArgsToHTTP : list cadence_Value -> list string * option error_value;
  ScriptToHTTP : list Byte.byte -> string;
  HTTPToCadenceValue : string -> option cadence_Value * option error_value;
  HTTPToBlockEvents :
    list models_BlockEvents -> list flow_BlockEvents * option error_value
}.

(** Modelled from the spec: [convert.SealedToHTTP], which is not in
    client.go; the spec gives it as the boolean-to-height-sentinel mapper
    sending [true] to "sealed" and [false] to "finalized". *)
Definition SealedToHTTP (isSealed : bool) : string :=
  if isSealed then "sealed" else "finalized".

Section Client.

Context {E : Externals}.

(** The [error] interface: [nil] or an error value. *)
Definition error : Type := option error_value.

(** ** The handler interface (client.go, lines 39-49)

    One field per method.  [H] is the state the implementation keeps (for
    the real handler, the network); a method maps its arguments and the
    state before the call to its Go results and the state after. *)

Record handler (H : Type) : Type := {
  getBlockByID :
    context_Context -> string -> H -> (ptr models_Block * error) * H;
  getBlockByHeight :
    context_Context -> string -> H -> (list (ptr models_Block) * error) * H;
  getAccount :
    context_Context -> string -> string -> H ->
    (ptr models_Account * error) * H;
  getCollection :
    context_Context -> string -> H -> (ptr models_Collection * error) * H;
  executeScriptAtBlockHeight :
    context_Context -> string -> string -> list string -> H ->
    (string * error) * H;
  executeScriptAtBlockID :
    context_Context -> string -> string -> list string -> H ->
    (string * error) * H;
  getTransaction :
    context_Context -> string -> bool -> H ->
    (ptr models_Transaction * error) * H;
  sendTransaction :
    context_Context -> list Byte.byte -> H -> error * H;
  getEvents :
    context_Context -> string -> string -> string -> list string -> H ->
    (list models_BlockEvents * error) * H
}.

Arguments getBlockByID {H}.
Arguments getBlockByHeight {H}.
Arguments getAccount {H}.
Arguments getCollection {H}.
Arguments executeScriptAtBlockHeight {H}.
Arguments executeScriptAtBlockID {H}.
Arguments getTransaction {H}.
Arguments sendTransaction {H}.
Arguments getEvents {H}.

(** A handler invocation [c.handler.m(args)] as a value: the method and
    the arguments it is called with. *)
Inductive call : Type :=
| CallGetBlockByID (ctx : context_Context) (ID : string)
| CallGetBlockByHeight (ctx : context_Context) (height : string)
| CallGetAccount (ctx : context_Context) (address height : string)
| CallGetCollection (ctx : context_Context) (ID : string)
| CallExecuteScriptAtBlockHeight
    (ctx : context_Context) (height script : string) (arguments : list string)
| CallExecuteScriptAtBlockID
    (ctx : context_Context) (ID script : string) (arguments : list string)
| CallGetTransaction (ctx : context_Context) (ID : string) (includeResult : bool)
| CallSendTransaction (ctx : context_Context) (transaction : list Byte.byte)
| CallGetEvents
    (ctx : context_Context) (eventType start end_ : string)
    (blockIDs : list string).

(** The Go results of each invocation. *)
Definition reply (q : call) : Type :=
  match q with
  | CallGetBlockByID _ _ => ptr models_Block * error
  | CallGetBlockByHeight _ _ => list (ptr models_Block) * error
  | CallGetAccount _ _ _ => ptr models_Account * error
  | CallGetCollection _ _ => ptr models_Collection * error
  | CallExecuteScriptAtBlockHeight _ _ _ _ => string * error
  | CallExecuteScriptAtBlockID _ _ _ _ => string * error
  | CallGetTransaction _ _ _ => ptr models_Transaction * error
  | CallSendTransaction _ _ => error
  | CallGetEvents _ _ _ _ _ => list models_BlockEvents * error
  end%type.

(** Dispatch of an invocation to the method of a handler. *)
Definition serve {H} (h : handler H) (q : call) : H -> reply q * H :=
  match q with
  | CallGetBlockByID ctx ID => getBlockByID h ctx ID
  | CallGetBlockByHeight ctx height => getBlockByHeight h ctx height
  | CallGetAccount ctx address height => getAccount h ctx address height
  | CallGetCollection ctx ID => getCollection h ctx ID
  | CallExecuteScriptAtBlockHeight ctx height script arguments =>
      executeScriptAtBlockHeight h ctx height script arguments
  | CallExecuteScriptAtBlockID ctx ID script arguments =>
      executeScriptAtBlockID h ctx ID script arguments
  | CallGetTransaction ctx ID includeResult =>
      getTransaction h ctx ID includeResult
  | CallSendTransaction ctx transaction => sendTransaction h ctx transaction
  | CallGetEvents ctx eventType start end_ blockIDs =>
      getEvents h ctx eventType start end_ blockIDs
  end.

(** ** Programs over the handler

    A method body either returns, panics, or invokes the handler and goes
    on with the reply. *)

Inductive prog (A : Type) : Type :=
| Ret (a : A)
| Panic (msg : string)
| Do (q : call) (k : reply q -> prog A).

Arguments Ret {A}.
Arguments Panic {A}.
Arguments Do {A}.

Fixpoint bind {A B} (m : prog A) (f : A -> prog B) : prog B :=
  match m with
  | Ret a => f a
  | Panic msg => Panic msg
  | Do q k => Do q (fun r => bind (k r) f)
  end.

#[export] Instance prog_ret : MRet prog := @Ret.
#[export] Instance prog_bind : MBind prog := fun A B f m => bind m f.

(** [c.handler.m(args)] *)
Definition invoke (q : call) : prog (reply q) := Do q Ret.

(** How a call of a method ends: with its Go results, or in a panic. *)
Inductive outcome (A : Type) : Type :=
| Returned (a : A)
| Panicked (msg : string).

Arguments Returned {A}.
Arguments Panicked {A}.

(** Running a program against a handler [h] from handler state [s]: the
    outcome, the handler state at the end, and the invocations made, in
    order. *)
Fixpoint run {H A} (h : handler H) (m : prog A) (s : H)
  : outcome A * H * list call :=
  match m with
  | Ret a => (Returned a, s, [])
  | Panic msg => (Panicked msg, s, [])
  | Do q k =>
      let r := serve h q s in
      let t := run h (k r.1) r.2 in
      (t.1.1, t.1.2, q :: t.2)
  end.

Definition result_of {H A} (h : handler H) (m : prog A) (s : H) : outcome A :=
  (run h m s).1.1.

Definition state_after {H A} (h : handler H) (m : prog A) (s : H) : H :=
  (run h m s).1.2.

Definition calls_of {H A} (h : handler H) (m : prog A) (s : H) : list call :=
  (run h m s).2.

(** ** Go operations that can panic *)

(** [l[i]] *)
Definition index {A} (l : list A) (i : nat) : prog A :=
  match l !! i with
  | Some x => Ret x
  | None => Panic (index_out_of_range i (length l))
  end.

(** [l[i] = v] *)
Definition store {A} (l : list A) (i : nat) (v : A) : prog (list A) :=
  if decide (i < length l) then Ret (<[i := v]> l)
  else Panic (index_out_of_range i (length l)).

(** [p.f] and [&p.f] for a pointer [p]: the pointer is dereferenced. *)
Definition deref {A} (p : ptr A) : prog A :=
  match p with
  | Some x => Ret x
  | None => Panic nil_dereference
  end.

(** [for i, x := range l { body }] over a loop state [T], starting at
    index [i]. *)
Fixpoint range {A T} (body : nat -> A -> T -> prog T)
    (i : nat) (l : list A) (acc : T) : prog T :=
  match l with
  | [] => Ret acc
  | x :: l' => acc' ← body i x acc; range body (S i) l' acc'
  end.

(** [make([]string, n)] *)
Definition make_strings (n : nat) : list string := replicate n "".

(** ** The methods of [Client] *)

Definition Ping (ctx : context_Context) : prog error :=
  Panic "implement me".

Definition GetBlockByID (ctx : context_Context) (blockID : flow_Identifier)
  : prog (ptr flow_Block * error) :=
  '(block, err) ← invoke (CallGetBlockByID ctx (Identifier_String blockID));
  match err with
  | Some _ => Ret (None, err)
  | None => Ret (HTTPToBlock block)
  end.

Definition GetLatestBlock (ctx : context_Context) (isSealed : bool)
  : prog (ptr flow_Block * error) :=
  '(blocks, err) ← invoke (CallGetBlockByHeight ctx (SealedToHTTP isSealed));
  match err with
  | Some _ => Ret (None, err)
  | None => b ← index blocks 0; Ret (HTTPToBlock b)
  end.

Definition GetBlockByHeight (ctx : context_Context) (height : N)
  : prog (ptr flow_Block * error) :=
  '(blocks, err) ← invoke (CallGetBlockByHeight ctx (Sprintf_d height));
  match err with
  | Some _ => Ret (None, err)
  | None => b ← index blocks 0; Ret (HTTPToBlock b)
  end.

Definition GetLatestBlockHeader (ctx : context_Context) (isSealed : bool)
  : prog (ptr flow_BlockHeader * error) :=
  '(block, err) ← GetLatestBlock ctx isSealed;
  match err with
  | Some _ => Ret (None, err)
  | None => b ← deref block; Ret (Some (BlockHeader b), None)
  end.

Definition GetBlockHeaderByID (ctx : context_Context) (blockID : flow_Identifier)
  : prog (ptr flow_BlockHeader * error) :=
  '(block, err) ← GetBlockByID ctx blockID;
  match err with
  | Some _ => Ret (None, err)
  | None => b ← deref block; Ret (Some (BlockHeader b), None)
  end.

Definition GetBlockHeaderByHeight (ctx : context_Context) (height : N)
  : prog (ptr flow_BlockHeader * error) :=
  '(block, err) ← GetBlockByHeight ctx height;
  match err with
  | Some _ => Ret (None, err)
  | None => b ← deref block; Ret (Some (BlockHeader b), None)
  end.

Definition GetCollection (ctx : context_Context) (ID : flow_Identifier)
  : prog (ptr flow_Collection * error) :=
  '(collection, err) ← invoke (CallGetCollection ctx (Identifier_String ID));
  match err with
  | Some _ => Ret (None, err)
  | None => Ret (HTTPToCollection collection, None)
  end.

Definition SendTransaction (ctx : context_Context) (tx : flow_Transaction)
  : prog error :=
  let '(convertedTx, err) := TransactionToHTTP tx in
  match err with
  | Some _ => Ret err
  | None => invoke (CallSendTransaction ctx convertedTx)
  end.

Definition GetTransaction (ctx : context_Context) (ID : flow_Identifier)
  : prog (ptr flow_Transaction * error) :=
  '(tx, err) ← invoke (CallGetTransaction ctx (Identifier_String ID) false);
  match err with
  | Some _ => Ret (None, err)
  | None => Ret (HTTPToTransaction tx)
  end.

Definition GetTransactionResult (ctx : context_Context) (ID : flow_Identifier)
  : prog (ptr flow_TransactionResult * error) :=
  '(tx, err) ← invoke (CallGetTransaction ctx (Identifier_String ID) true);
  match err with
  | Some _ => Ret (None, err)
  | None => t ← deref tx; Ret (HTTPToTransactionResult (Result t))
  end.

Definition GetAccount (ctx : context_Context) (address : flow_Address)
  : prog (ptr flow_Account * error) :=
  '(account, err) ←
    invoke (CallGetAccount ctx (Address_String address) SEALED_HEIGHT);
  match err with
  | Some _ => Ret (None, err)
  | None => Ret (HTTPToAccount account)
  end.

Definition GetAccountAtLatestBlock (ctx : context_Context)
    (address : flow_Address) : prog (ptr flow_Account * error) :=
  GetAccount ctx address.

Definition GetAccountAtBlockHeight (ctx : context_Context)
    (address : flow_Address) (blockHeight : N)
  : prog (ptr flow_Account * error) :=
  '(account, err) ←
    invoke (CallGetAccount ctx (Address_String address) (Sprintf_d blockHeight));
  match err with
  | Some _ => Ret (None, err)
  | None => Ret (HTTPToAccount account)
  end.

Definition ExecuteScriptAtLatestBlock (ctx : context_Context)
    (script : list Byte.byte) (arguments : list cadence_Value)
  : prog (option cadence_Value * error) :=
  let '(args, err) := CadenceArgsToHTTP arguments in
  match err with
  | Some _ => Ret (None, err)
  | None =>
      '(result, err) ←
        invoke (CallExecuteScriptAtBlockHeight
                  ctx SEALED_HEIGHT (ScriptToHTTP script) args);
      match err with
      | Some _ => Ret (None, err)
      | None => Ret (HTTPToCadenceValue result)
      end
  end.

Definition ExecuteScriptAtBlockID (ctx : context_Context)
    (blockID : flow_Identifier) (script : list Byte.byte)
    (arguments : list cadence_Value)
  : prog (option cadence_Value * error) :=
  let '(args, err) := CadenceArgsToHTTP arguments in
  match err with
  | Some _ => Ret (None, err)
  | None =>
      '(result, err) ←
        invoke (CallExecuteScriptAtBlockID
                  ctx (Identifier_String blockID) (ScriptToHTTP script) args);
      match err with
      | Some _ => Ret (None, err)
      | None => Ret (HTTPToCadenceValue result)
      end
  end.

Definition ExecuteScriptAtBlockHeight (ctx : context_Context) (height : N)
    (script : list Byte.byte) (arguments : list cadence_Value)
  : prog (option cadence_Value * error) :=
  let '(args, err) := CadenceArgsToHTTP arguments in
  match err with
  | Some _ => Ret (None, err)
  | None =>
      '(result, err) ←
        invoke (CallExecuteScriptAtBlockHeight
                  ctx (Sprintf_d height) (ScriptToHTTP script) args);
      match err with
      | Some _ => Ret (None, err)
      | None => Ret (HTTPToCadenceValue result)
      end
  end.

Definition GetEventsForHeightRange (ctx : context_Context) (eventType : string)
    (startHeight endHeight : N) : prog (list flow_BlockEvents * error) :=
  '(events, err) ←
    invoke (CallGetEvents ctx eventType
              (Sprintf_d startHeight) (Sprintf_d endHeight) []);
  match err with
  | Some _ => Ret ([], err)
  | None => Ret (HTTPToBlockEvents events)
  end.

Definition GetEventsForBlockIDs (ctx : context_Context) (eventType : string)
    (blockIDs : list flow_Identifier) : prog (list flow_BlockEvents * error) :=
  ids ← range (fun i id ids => store ids i (Identifier_String id))
          0 blockIDs (make_strings (length blockIDs));
  '(events, err) ← invoke (CallGetEvents ctx eventType "" "" ids);
  match err with
  | Some _ => Ret ([], err)
  | None => Ret (HTTPToBlockEvents events)
  end.

Definition GetLatestProtocolStateSnapshot (ctx : context_Context)
  : prog (list Byte.byte * error) :=
  Panic "implement me".

Definition GetExecutionResultForBlockID (ctx : context_Context)
    (blockID : flow_Identifier) : prog (ptr flow_ExecutionResult * error) :=
  Panic "implement me".

End Client.

Arguments Ret {E A}.
Arguments Panic {E A}.
Arguments Do {E A}.
Arguments Returned {A}.
Arguments Panicked {A}.
Arguments getBlockByID {E H}.
Arguments getBlockByHeight {E H}.
Arguments getAccount {E H}.
Arguments getCollection {E H}.
Arguments executeScriptAtBlockHeight {E H}.
Arguments executeScriptAtBlockID {E H}.
Arguments getTransaction {E H}.
Arguments sendTransaction {E H}.
Arguments getEvents {E H}.

(** Which filter of [getEvents] an invocation uses: height bounds are in
    use when a bound is not the empty string, the identifier set when it
    has a member. *)
Definition uses_height_bounds {E : Externals} (q : call) : bool :=
  match q with
  | CallGetEvents _ _ start end_ _ =>
      negb (String.eqb start "") || negb (String.eqb end_ "")
  | _ => false
  end.

Definition uses_identifier_set {E : Externals} (q : call) : bool :=
  match q with
  | CallGetEvents _ _ _ _ blockIDs => negb (bool_decide (blockIDs = []))
  | _ => false
  end.

(** The relation a header method [hm] is to have to the full-block method
    [bm] it is built on, from the same handler state [s]: whenever [bm]
    returns a block without error, [hm] returns the [BlockHeader] field of
    that block; whenever [bm] fails, by an error or in a panic, [hm] fails
    with the same error or panic; either way the handler is used
    identically. *)
Definition returns_header_of {E : Externals} {H : Type} (h : handler H)
    (hm : prog (ptr flow_BlockHeader * error))
    (bm : prog (ptr flow_Block * error)) (s : H) : Prop :=
  (∀ b s' log,
     run h bm s = (Returned (Some b, None), s', log) ->
     run h hm s = (Returned (Some (BlockHeader b), None), s', log))
  ∧ (∀ block e s' log,
       run h bm s = (Returned (block, Some e), s', log) ->
       run h hm s = (Returned (None, Some e), s', log))
  ∧ (∀ msg s' log,
       run h bm s = (Panicked msg, s', log) ->
       run h hm s = (Panicked msg, s', log)).

(** ** A test double

    Small concrete externals and a handler that answers from canned wire
    records, to run the client on. *)

Definition demo : Externals := {|
  context_Context := unit;
  error_value := string;
  flow_Identifier := N;
  flow_Address := N;
  flow_BlockHeader := N;
  flow_Block := N * list N;
  flow_Collection := list N;
  flow_Transaction := string;
  flow_TransactionResult := N;
  flow_Account := N;
  flow_BlockEvents := N * list string;
  flow_ExecutionResult := unit;
  cadence_Value := N;
  models_Block := N;
  models_Account := N;
  models_Collection := list N;
  models_Transaction := string * ptr N;
  models_TransactionResult := N;
  models_BlockEvents := N * list string;
  Identifier_String := fun id => "id" +:+ pretty id;
  Address_String := fun a => "0x" +:+ pretty a;
  BlockHeader := fst;
  Result := snd;
  HTTPToBlock := fun b =>
    match b with
    | Some height => (Some (height, []), None)
    | None => (None, Some "nil block")
    end;
  HTTPToCollection := fun c => c;
  TransactionToHTTP := fun tx =>
    if String.eqb tx "" then ([], Some "empty transaction")
    else (list_byte_of_string tx, None);
  HTTPToTransaction := fun t =>
    match t with
    | Some (script, _) => (Some script, None)
    | None => (None, Some "nil transaction")
    end;
  HTTPToTransactionResult := fun r =>
    match r with
    | Some status => (Some status, None)
    | None => (None, Some "nil transaction result")
    end;
  HTTPToAccount := fun a =>
    match a with
    | Some balance => (Some balance, None)
    | None => (None, Some "nil account")
    end;
  CadenceArgsToHTTP := fun args =>
    if forallb (fun v => v <? 256)%N args then (pretty <$> args, None)
    else ([], Some "argument does not fit the encoding");
  ScriptToHTTP := string_of_list_byte;
  HTTPToCadenceValue := fun s => (Some (N.of_nat (String.length s)), None);
  HTTPToBlockEvents := fun evs => (evs, None)
|}.

(** The canned replies: every reply carries the error [err]; a by-height
    query is answered with [blocks]. *)
Definition canned (err : @error demo) (blocks : list (ptr N))
    (q : @call demo) : @reply demo q :=
  match q with
  | CallGetBlockByID _ _ => (Some 7%N, err)
  | CallGetBlockByHeight _ _ => (blocks, err)
  | CallGetAccount _ _ _ => (Some 1000%N, err)
  | CallGetCollection _ _ => (Some [1%N; 2%N], err)
  | CallExecuteScriptAtBlockHeight _ _ _ _ => ("42", err)
  | CallExecuteScriptAtBlockID _ _ _ _ => ("42", err)
  | CallGetTransaction _ _ includeResult =>
      (Some ("tx", if includeResult then Some 4%N else None), err)
  | CallSendTransaction _ _ => err
  | CallGetEvents _ _ _ _ _ => ([(5%N, ["A.Deposit"])], err)
  end.

(** The test double counts the requests it has served. *)
Definition stub (err : @error demo) (blocks : list (ptr N))
  : @handler demo nat := {|
  getBlockByID ctx ID n := (canned err blocks (CallGetBlockByID ctx ID), S n);
  getBlockByHeight ctx height n :=
    (canned err blocks (CallGetBlockByHeight ctx height), S n);
  getAccount ctx address height n :=
    (canned err blocks (CallGetAccount ctx address height), S n);
  getCollection ctx ID n :=
    (canned err blocks (CallGetCollection ctx ID), S n);
  executeScriptAtBlockHeight ctx height script arguments n :=
    (canned err blocks
       (CallExecuteScriptAtBlockHeight ctx height script arguments), S n);
  executeScriptAtBlockID ctx ID script arguments n :=
    (canned err blocks (CallExecuteScriptAtBlockID ctx ID script arguments),
     S n);
  getTransaction ctx ID includeResult n :=
    (canned err blocks (CallGetTransaction ctx ID includeResult), S n);
  sendTransaction ctx transaction n :=
    (canned err blocks (CallSendTransaction ctx transaction), S n);
  getEvents ctx eventType start end_ blockIDs n :=
    (canned err blocks (CallGetEvents ctx eventType start end_ blockIDs), S n)
|}.

(** The part the three header methods share: what each does with the
    results of its block method (client.go, lines 116-120, 125-129 and
    134-138). *)
Definition header_step {E : Externals} (r : ptr flow_Block * error)
  : prog (ptr flow_BlockHeader * error) :=
  let '(block, err) := r in
  match err with
  | Some _ => Ret (None, err)
  | None => b ← deref block; Ret (Some (BlockHeader b), None)
  end.

(** How a header method [hm] built on the by-height query for [ht] ends,
    read off the handler's reply and the conversion of its first block. *)
Definition header_of_first_block {E : Externals} {H : Type} (h : handler H)
    (ctx : context_Context) (ht : string)
    (hm : prog (ptr flow_BlockHeader * error)) (s : H) : Prop :=
  let r := getBlockByHeight h ctx ht s in
  (∀ e, r.1.2 = Some e -> result_of h hm s = Returned (None, Some e))
  ∧ (r.1 = ([], None) ->
     result_of h hm s = Panicked (index_out_of_range 0 0))
  ∧ (∀ b rest blk,
       r.1 = (b :: rest, None) -> HTTPToBlock b = (Some blk, None) ->
       result_of h hm s = Returned (Some (BlockHeader blk), None))
  ∧ (∀ b rest x e,
       r.1 = (b :: rest, None) -> HTTPToBlock b = (x, Some e) ->
       result_of h hm s = Returned (None, Some e)).

(** ** Reading an invocation *)

(** The methods of the handler interface. *)
Inductive handler_method : Type :=
| M_getBlockByID
| M_getBlockByHeight
| M_getAccount
| M_getCollection
| M_executeScriptAtBlockHeight
| M_executeScriptAtBlockID
| M_getTransaction
| M_sendTransaction
| M_getEvents.

Section Reading.

Context {E : Externals}.

(** The handler method an invocation goes to. *)
Definition method_of (q : call) : handler_method :=
  match q with
  | CallGetBlockByID _ _ => M_getBlockByID
  | CallGetBlockByHeight _ _ => M_getBlockByHeight
  | CallGetAccount _ _ _ => M_getAccount
  | CallGetCollection _ _ => M_getCollection
  | CallExecuteScriptAtBlockHeight _ _ _ _ => M_executeScriptAtBlockHeight
  | CallExecuteScriptAtBlockID _ _ _ _ => M_executeScriptAtBlockID
  | CallGetTransaction _ _ _ => M_getTransaction
  | CallSendTransaction _ _ => M_sendTransaction
  | CallGetEvents _ _ _ _ _ => M_getEvents
  end.

(** The context an invocation carries. *)
Definition ctx_of (q : call) : context_Context :=
  match q with
  | CallGetBlockByID ctx _
  | CallGetBlockByHeight ctx _
  | CallGetAccount ctx _ _
  | CallGetCollection ctx _
  | CallExecuteScriptAtBlockHeight ctx _ _ _
  | CallExecuteScriptAtBlockID ctx _ _ _
  | CallGetTransaction ctx _ _
  | CallSendTransaction ctx _
  | CallGetEvents ctx _ _ _ _ => ctx
  end.

(** The height argument of the invocations that have one. *)
Definition height_of (q : call) : option string :=
  match q with
  | CallGetBlockByHeight _ height
  | CallGetAccount _ _ height
  | CallExecuteScriptAtBlockHeight _ height _ _ => Some height
  | _ => None
  end.

(** A program that invokes the handler at most [n] times, whatever the
    handler replies, and only with invocations satisfying [P]. *)
Fixpoint calls_within {A} (n : nat) (P : call -> Prop) (m : prog A)
    {struct m} : Prop :=
  match m with
  | Ret _ | Panic _ => True
  | Do q k =>
      match n with
      | 0 => False
      | S n' => P q ∧ ∀ r, calls_within n' P (k r)
      end
  end.

(** A Go result pair in which exactly one of value and error is nil. *)
Definition value_xor_error {A} (r : ptr A * error) : Prop :=
  (is_Some r.1 ∧ r.2 = None) ∨ (r.1 = None ∧ is_Some r.2).

End Reading.

(** A method [m] that has received the reply [r] of its one handler
    invocation: it leaves the handler state of [r]; without error it
    returns the conversion [conv] of the payload, and on an error it
    returns that error next to the zero value [zero]. *)
Definition converts_or_propagates {E : Externals} {H A B : Type}
    (h : handler H) (m : prog (B * error)) (s : H)
    (conv : A -> B * error) (zero : B) (r : (A * error) * H) : Prop :=
  state_after h m s = r.2
  ∧ (r.1.2 = None -> result_of h m s = Returned (conv r.1.1))
  ∧ (r.1.2 ≠ None -> result_of h m s = Returned (zero, r.1.2)).

(** A method that invokes the handler at most once from state [s], and
    then the method [meth] with the context [ctx]. *)
Definition routed {E : Externals} {H A : Type} (h : handler H)
    (ctx : context_Context) (meth : handler_method) (m : prog A) (s : H)
  : Prop :=
  length (calls_of h m s) <= 1
  ∧ Forall (fun q => method_of q = meth ∧ ctx_of q = ctx) (calls_of h m s).


(** A string of decimal digits. *)
Definition is_digit (c : ascii) : bool :=
  Nat.leb 48 (nat_of_ascii c) && Nat.leb (nat_of_ascii c) 57.

Fixpoint all_digits (s : string) : bool :=
  match s with
  | EmptyString => true
  | String c s' => is_digit c && all_digits s'
  end.

(** ** Construction (client.go, lines 33-94) *)

Definition EMULATOR_API : string := "http://127.0.0.1:8888/v1".
Definition TESTNET_API : string := "https://rest-testnet.onflow.org/v1/".
Definition MAINNET_API : string := "https://rest-mainnet.onflow.org/v1/".
Definition CANARYNET_API : string := "".

(** [type Client struct { handler handler }], over the values [I] that
    implement the interface. *)
Record Client (I : Type) : Type := { Client_handler : I }.

Arguments Client_handler {I}.

(** [NewClient]: a pointer to a fresh [Client], never nil. *)
Definition NewClient {I : Type} (handler : I) : ptr (Client I) :=
  Some {| Client_handler := handler |}.

Section Construction.

Context {E : Externals}.

(** [newHandler] is declared outside client.go; it is taken as given: any
    function from a base URL and a debug flag to a handler value of some
    type [I] and an error. *)
Context {I : Type} (newHandler : string -> bool -> I * error).

Definition NewDefaultEmulatorClient (debug : bool) : ptr (Client I) * error :=
  let '(httpHandler, err) := newHandler EMULATOR_API debug in
  match err with
  | Some _ => (None, err)
  | None => (NewClient httpHandler, None)
  end.

Definition NewDefaultTestnetClient : ptr (Client I) * error :=
  let '(httpHandler, err) := newHandler TESTNET_API false in
  match err with
  | Some _ => (None, err)
  | None => (NewClient httpHandler, None)
  end.

Definition NewDefaultCanaryClient : ptr (Client I) * error :=
  let '(httpHandler, err) := newHandler CANARYNET_API false in
  match err with
  | Some _ => (None, err)
  | None => (NewClient httpHandler, None)
  end.

Definition NewDefaultMainnetClient : ptr (Client I) * error :=
  let '(httpHandler, err) := newHandler MAINNET_API false in
  match err with
  | Some _ => (None, err)
  | None => (NewClient httpHandler, None)
  end.

End Construction.

(** The results [c] of a constructor that was given the results [r] of
    [newHandler]: on an error, a nil client and that error; otherwise a
    client holding the handler of [r], and a nil error. *)
Definition built_from {E : Externals} {I : Type}
    (r : I * error) (c : ptr (Client I) * error) : Prop :=
  (r.2 ≠ None -> c = (None, r.2))
  ∧ (r.2 = None -> c = (Some {| Client_handler := r.1 |}, None)).

(** A handler constructor for the test double: it rejects the empty base
    URL and otherwise remembers its two arguments. *)
Definition demo_newHandler (baseUrl : string) (debug : bool)
  : (string * bool) * @error demo :=
  if String.eqb baseUrl "" then (("", false), Some "empty base URL")
  else ((baseUrl, debug), None).

(** A test double whose transaction query finds nothing and says so with
    a nil transaction and a nil error; the other methods are those of
    [stub None []]. *)
Definition stub_nil_transaction : @handler demo nat := {|
  getBlockByID := getBlockByID (stub None []);
  getBlockByHeight := getBlockByHeight (stub None []);
  getAccount := getAccount (stub None []);
  getCollection := getCollection (stub None []);
  executeScriptAtBlockHeight := executeScriptAtBlockHeight (stub None []);
  executeScriptAtBlockID := executeScriptAtBlockID (stub None []);
  getTransaction := fun ctx ID includeResult n => ((None, None), S n);
  sendTransaction := sendTransaction (stub None []);
  getEvents := getEvents (stub None [])
|}.

(** * Properties *)

(** ** Decimal numerals *)

Lemma pretty_N_go_length (x : N) (s : string) :
  String.length s <= String.length (pretty_N_go x s).
Proof.
  revert s. induction (N.lt_wf_0 x) as [x _ IH]. intros s.
  destruct (decide (x = 0%N)) as [-> | Hx].
  - rewrite pretty_N_go_0. lia.
  - rewrite pretty_N_go_step by lia.
    etrans; [| apply IH, N.div_lt; lia]. simpl. lia.
Qed.

Lemma Sprintf_d_nonempty (n : N) : Sprintf_d n ≠ "".
Proof.
  unfold Sprintf_d, pretty, pretty_N. case_decide as Hn; [done |].
  rewrite pretty_N_go_step by lia. intros Heq.
  pose proof (pretty_N_go_length (n `div` 10)
                (String (pretty_N_char (n `mod` 10)) "")) as Hlen.
  rewrite Heq in Hlen. simpl in Hlen. lia.
Qed.

Lemma Sprintf_d_inj (m n : N) : Sprintf_d m = Sprintf_d n -> m = n.
Proof. apply pretty_N_inj. Qed.

Example Sprintf_d_10_20 : Sprintf_d 10 = "10" ∧ Sprintf_d 20 = "20".
Proof. split; reflexivity. Qed.

Example Sprintf_d_max_uint64 :
  Sprintf_d (2 ^ 64 - 1) = "18446744073709551615".
Proof. vm_compute. reflexivity. Qed.

(** ** Running programs *)

Section Running.

Context {E : Externals} {H : Type} (h : handler H).

Lemma run_bind {A B} (m : prog A) (f : A -> prog B) (s : H) :
  run h (bind m f) s =
  match (run h m s).1.1 with
  | Returned a =>
      let t := run h (f a) (run h m s).1.2 in
      (t.1.1, t.1.2, (run h m s).2 ++ t.2)
  | Panicked msg => (Panicked msg, (run h m s).1.2, (run h m s).2)
  end.
Proof.
  revert s. induction m as [a | msg | q k IH]; intros s; simpl.
  - by destruct (run h (f a) s) as [[o s'] log].
  - done.
  - rewrite IH. by destruct (run h (k _) _).1.1.
Qed.

Lemma run_mbind {A B} (m : prog A) (f : A -> prog B) (s : H) :
  run h (m ≫= f) s = run h (bind m f) s.
Proof. done. Qed.

(** A program whose result is passed on through a further step that makes
    no handler call: the state and the invocations are those of the
    program. *)
Lemma run_bind_pure {A B} (m : prog A) (f : A -> prog B) (s : H) a s' log b :
  run h m s = (Returned a, s', log) ->
  f a = Ret b ->
  run h (bind m f) s = (Returned b, s', log).
Proof.
  intros Hm Hf. rewrite run_bind, Hm. simpl. rewrite Hf. simpl.
  by rewrite app_nil_r.
Qed.

Lemma run_bind_panic_after {A B} (m : prog A) (f : A -> prog B) (s : H)
    a s' log msg :
  run h m s = (Returned a, s', log) ->
  f a = Panic msg ->
  run h (bind m f) s = (Panicked msg, s', log).
Proof.
  intros Hm Hf. rewrite run_bind, Hm. simpl. rewrite Hf. simpl.
  by rewrite app_nil_r.
Qed.

Lemma run_bind_panic {A B} (m : prog A) (f : A -> prog B) (s : H) s' log msg :
  run h m s = (Panicked msg, s', log) ->
  run h (bind m f) s = (Panicked msg, s', log).
Proof. intros Hm. by rewrite run_bind, Hm. Qed.

End Running.

(** ** The loop of [GetEventsForBlockIDs] *)

Section Loop.

Context {E : Externals}.

(** Filling [acc] from index [i] on with the images of [l] never leaves
    the slice when it is long enough, and overwrites exactly the positions
    [i .. i + length l - 1]. *)
Lemma range_store {A} (f : A -> string) (l : list A) :
  forall (i : nat) (acc : list string),
    i + length l <= length acc ->
    range (fun j x ids => store ids j (f x)) i l acc
    = Ret (take i acc ++ (f <$> l) ++ drop (i + length l) acc).
Proof.
  induction l as [| x l IH]; intros i acc Hlen; simpl in *.
  - by rewrite Nat.add_0_r, take_drop.
  - unfold store. rewrite decide_True by lia. simpl.
    rewrite IH by (rewrite length_insert; lia). f_equal.
    rewrite (take_S_r _ _ (f x)) by (apply list_lookup_insert_eq; lia).
    rewrite take_insert_ge by lia.
    rewrite drop_insert_lt by lia.
    rewrite <- app_assoc. simpl. by rewrite Nat.add_succ_r.
Qed.

End Loop.

(** ** The claims *)

(** Unfolds the three views of a run and evaluates the program up to the
    handler's reply. *)
Ltac run_client :=
  unfold calls_of, state_after, result_of; simpl;
  repeat match goal with
         | Hreply : ?lhs = (_, _) |- context [?lhs] => rewrite Hreply; simpl
         end.

(** C8.  [GetBlockByID] invokes the handler exactly once, with the string
    encoding of the identifier.  When the handler reports no error the
    method returns what [convert.HTTPToBlock] makes of the handler's block;
    when it reports an error, that very error value is returned next to a
    nil block. *)
Theorem GetBlockByID_one_call_then_convert
    {E : Externals} {H : Type} (h : handler H)
    (ctx : context_Context) (blockID : flow_Identifier) (s : H)
    (block : ptr models_Block) (err : error) (s' : H) :
  getBlockByID h ctx (Identifier_String blockID) s = ((block, err), s') ->
  calls_of h (GetBlockByID ctx blockID) s
    = [CallGetBlockByID ctx (Identifier_String blockID)]
  ∧ state_after h (GetBlockByID ctx blockID) s = s'
  ∧ (err = None ->
     result_of h (GetBlockByID ctx blockID) s = Returned (HTTPToBlock block))
  ∧ (err ≠ None ->
     result_of h (GetBlockByID ctx blockID) s = Returned (None, err)).
Proof.
  intros Hreply. run_client. by destruct err.
Qed.

Lemma GetBlockByID_one_call_then_convert_witness :
  calls_of (stub None []) (GetBlockByID (E := demo) tt 5%N) 0
    = [CallGetBlockByID (E := demo) tt "id5"]
  ∧ result_of (stub None []) (GetBlockByID (E := demo) tt 5%N) 0
    = Returned (Some (7%N, []), None)
  ∧ result_of (stub (Some "503") []) (GetBlockByID (E := demo) tt 5%N) 0
    = Returned (None, Some "503").
Proof.
  destruct (GetBlockByID_one_call_then_convert (E := demo)
              (stub None []) tt 5%N 0 (Some 7%N) None 1 eq_refl)
    as (Hcalls & _ & Hok & _).
  destruct (GetBlockByID_one_call_then_convert (E := demo)
              (stub (Some "503") []) tt 5%N 0 (Some 7%N) (Some "503") 1 eq_refl)
    as (_ & _ & _ & Herr).
  split; [exact Hcalls |].
  split; [exact (Hok eq_refl) | by apply Herr].
Defined.

(** C1.  What the by-height queries do on a successful but empty handler
    result: [blocks[0]] is evaluated without a length check, so the method
    ends in the run-time panic for index 0 of a slice of length 0 and
    returns nothing, in particular no not-found error. *)
Theorem by_height_query_panics_on_empty_result
    {E : Externals} {H : Type} (h : handler H)
    (ctx : context_Context) (isSealed : bool) (height : N) (s : H) :
  ((getBlockByHeight h ctx (SealedToHTTP isSealed) s).1 = ([], None) ->
   result_of h (GetLatestBlock ctx isSealed) s
     = Panicked "runtime error: index out of range [0] with length 0")
  ∧ ((getBlockByHeight h ctx (Sprintf_d height) s).1 = ([], None) ->
     result_of h (GetBlockByHeight ctx height) s
       = Panicked "runtime error: index out of range [0] with length 0").
Proof.
  split; intros Hreply; unfold result_of; simpl; by rewrite Hreply.
Qed.

Lemma by_height_query_panics_on_empty_result_witness :
  result_of (stub None []) (GetLatestBlock (E := demo) tt true) 0
    = Panicked "runtime error: index out of range [0] with length 0"
  ∧ result_of (stub None []) (GetBlockByHeight (E := demo) tt 12%N) 0
    = Panicked "runtime error: index out of range [0] with length 0".
Proof.
  destruct (by_height_query_panics_on_empty_result (E := demo)
              (stub None []) tt true 12%N 0) as (Hlatest & Hheight).
  split; [exact (Hlatest eq_refl) | exact (Hheight eq_refl)].
Defined.

(** C2, as the spec words it, would have each of the three unimplemented
    methods hand an error value back to its caller.  On the test double
    none of them returns any value. *)
Lemma unimplemented_methods_return_no_error_value :
  ¬ (∃ e, result_of (stub None []) (Ping (E := demo) tt) 0
          = Returned (Some e))
  ∧ ¬ (∃ v e,
         result_of (stub None []) (GetLatestProtocolStateSnapshot (E := demo) tt) 0
         = Returned (v, Some e))
  ∧ ¬ (∃ v e,
         result_of (stub None [])
           (GetExecutionResultForBlockID (E := demo) tt 5%N) 0
         = Returned (v, Some e)).
Proof.
  repeat split.
  - intros (e & Hret). discriminate Hret.
  - intros (v & e & Hret). discriminate Hret.
  - intros (v & e & Hret). discriminate Hret.
Qed.

(** C2, amended.  [Ping], [GetLatestProtocolStateSnapshot] and
    [GetExecutionResultForBlockID] each end in a panic with the message
    "implement me": the handler is not invoked, its state is untouched, and
    no value (neither an error nor a default) reaches the caller. *)
Theorem unimplemented_methods_panic
    {E : Externals} {H : Type} (h : handler H)
    (ctx : context_Context) (blockID : flow_Identifier) (s : H) :
  run h (Ping ctx) s = (Panicked "implement me", s, [])
  ∧ run h (GetLatestProtocolStateSnapshot ctx) s
    = (Panicked "implement me", s, [])
  ∧ run h (GetExecutionResultForBlockID ctx blockID) s
    = (Panicked "implement me", s, []).
Proof. by repeat split. Qed.

(** C3.  The three script methods encode the argument list first.  When
    [convert.CadenceArgsToHTTP] reports an error, that error is returned
    with a nil value, the handler is not invoked and its state is
    untouched; otherwise the single handler invocation carries the encoded
    argument list. *)
Theorem ExecuteScript_encodes_arguments_first
    {E : Externals} {H : Type} (h : handler H)
    (ctx : context_Context) (height : N) (blockID : flow_Identifier)
    (script : list Byte.byte) (arguments : list cadence_Value) (s : H)
    (args : list string) (err : error) :
  CadenceArgsToHTTP arguments = (args, err) ->
  (err ≠ None ->
   run h (ExecuteScriptAtBlockHeight ctx height script arguments) s
     = (Returned (None, err), s, [])
   ∧ run h (ExecuteScriptAtLatestBlock ctx script arguments) s
     = (Returned (None, err), s, [])
   ∧ run h (ExecuteScriptAtBlockID ctx blockID script arguments) s
     = (Returned (None, err), s, []))
  ∧ (err = None ->
     calls_of h (ExecuteScriptAtBlockHeight ctx height script arguments) s
       = [CallExecuteScriptAtBlockHeight
            ctx (Sprintf_d height) (ScriptToHTTP script) args]
     ∧ calls_of h (ExecuteScriptAtLatestBlock ctx script arguments) s
       = [CallExecuteScriptAtBlockHeight
            ctx "sealed" (ScriptToHTTP script) args]
     ∧ calls_of h (ExecuteScriptAtBlockID ctx blockID script arguments) s
       = [CallExecuteScriptAtBlockID
            ctx (Identifier_String blockID) (ScriptToHTTP script) args]).
Proof.
  intros Hargs.
  unfold ExecuteScriptAtBlockHeight, ExecuteScriptAtLatestBlock,
    ExecuteScriptAtBlockID, calls_of.
  rewrite Hargs. destruct err as [e |].
  - split; [done |]. intros [=].
  - split; [done |]. intros _. simpl.
    repeat split; f_equal; by repeat case_match.
Qed.

Lemma ExecuteScript_encodes_arguments_first_witness :
  run (stub None []) (ExecuteScriptAtBlockHeight (E := demo) tt 3%N [] [1%N; 300%N]) 0
    = (Returned (None, Some "argument does not fit the encoding"), 0, [])
  ∧ calls_of (stub None [])
      (ExecuteScriptAtBlockHeight (E := demo) tt 3%N [] [1%N; 30%N]) 0
    = [CallExecuteScriptAtBlockHeight (E := demo) tt "3" "" ["1"; "30"]].
Proof.
  split.
  - destruct (ExecuteScript_encodes_arguments_first (E := demo)
                (stub None []) tt 3%N 5%N [] [1%N; 300%N] 0
                [] (Some "argument does not fit the encoding") eq_refl)
      as (Hfail & _).
    by destruct Hfail as (Hheight & _).
  - destruct (ExecuteScript_encodes_arguments_first (E := demo)
                (stub None []) tt 3%N 5%N [] [1%N; 30%N] 0
                ["1"; "30"] None eq_refl)
      as (_ & Hok).
    destruct (Hok eq_refl) as (Hheight & _). exact Hheight.
Defined.

(** C4.  [GetLatestBlock] invokes the handler's by-height method exactly
    once, with "sealed" when [isSealed] holds and "finalized" otherwise.
    When the handler reports no error and its sequence has a first
    element, the method returns what [convert.HTTPToBlock] makes of that
    element. *)
Theorem GetLatestBlock_sentinel_then_first_block
    {E : Externals} {H : Type} (h : handler H)
    (ctx : context_Context) (isSealed : bool) (s : H)
    (blocks : list (ptr models_Block)) (err : error) (s' : H) :
  getBlockByHeight h ctx (if isSealed then "sealed" else "finalized") s
    = ((blocks, err), s') ->
  calls_of h (GetLatestBlock ctx isSealed) s
    = [CallGetBlockByHeight ctx (if isSealed then "sealed" else "finalized")]
  ∧ state_after h (GetLatestBlock ctx isSealed) s = s'
  ∧ (∀ b, err = None -> blocks !! 0 = Some b ->
       result_of h (GetLatestBlock ctx isSealed) s = Returned (HTTPToBlock b)).
Proof.
  intros Hreply. unfold calls_of, state_after, result_of, GetLatestBlock.
  change (SealedToHTTP isSealed)
    with (if isSealed then "sealed" else "finalized").
  simpl. rewrite Hreply. simpl.
  destruct err as [e |]; [done |].
  unfold index. destruct blocks as [| b0 blocks]; simpl; [done |].
  repeat split; try done. by intros b _ [= ->].
Qed.

Lemma GetLatestBlock_sentinel_then_first_block_witness :
  calls_of (stub None [Some 9%N; Some 8%N]) (GetLatestBlock (E := demo) tt false) 0
    = [CallGetBlockByHeight (E := demo) tt "finalized"]
  ∧ result_of (stub None [Some 9%N; Some 8%N])
      (GetLatestBlock (E := demo) tt true) 0
    = Returned (Some (9%N, []), None).
Proof.
  split.
  - by destruct (GetLatestBlock_sentinel_then_first_block (E := demo)
                   (stub None [Some 9%N; Some 8%N]) tt false 0
                   [Some 9%N; Some 8%N] None 1 eq_refl) as (Hcalls & _).
  - destruct (GetLatestBlock_sentinel_then_first_block (E := demo)
                (stub None [Some 9%N; Some 8%N]) tt true 0
                [Some 9%N; Some 8%N] None 1 eq_refl) as (_ & _ & Hfirst).
    exact (Hfirst (Some 9%N) eq_refl eq_refl).
Defined.

(** C5.  [GetEventsForHeightRange] invokes [getEvents] once with the event
    type, the decimal numerals of the two heights and no identifiers;
    [GetEventsForBlockIDs] invokes it once with the event type, two empty
    bounds and the string encodings of the identifiers, in order.  No
    invocation made by either method uses both filters: the first uses the
    height bounds only, the second never uses them. *)
Theorem GetEvents_filter_modes_are_separate
    {E : Externals} {H : Type} (h : handler H)
    (ctx : context_Context) (eventType : string)
    (startHeight endHeight : N) (blockIDs : list flow_Identifier) (s : H) :
  calls_of h (GetEventsForHeightRange ctx eventType startHeight endHeight) s
    = [CallGetEvents ctx eventType
         (Sprintf_d startHeight) (Sprintf_d endHeight) []]
  ∧ calls_of h (GetEventsForBlockIDs ctx eventType blockIDs) s
    = [CallGetEvents ctx eventType "" "" (Identifier_String <$> blockIDs)]
  ∧ Forall (fun q => uses_height_bounds q = true
                     ∧ uses_identifier_set q = false)
      (calls_of h
         (GetEventsForHeightRange ctx eventType startHeight endHeight) s)
  ∧ Forall (fun q => uses_height_bounds q = false)
      (calls_of h (GetEventsForBlockIDs ctx eventType blockIDs) s)
  ∧ Forall (fun q => uses_height_bounds q && uses_identifier_set q = false)
      (calls_of h
         (GetEventsForHeightRange ctx eventType startHeight endHeight) s
       ++ calls_of h (GetEventsForBlockIDs ctx eventType blockIDs) s).
Proof.
  assert (calls_of h
            (GetEventsForHeightRange ctx eventType startHeight endHeight) s
          = [CallGetEvents ctx eventType
               (Sprintf_d startHeight) (Sprintf_d endHeight) []]) as Hrange.
  { unfold calls_of. simpl. f_equal. by repeat case_match. }
  assert (calls_of h (GetEventsForBlockIDs ctx eventType blockIDs) s
          = [CallGetEvents ctx eventType "" ""
               (Identifier_String <$> blockIDs)]) as Hids.
  { unfold calls_of, GetEventsForBlockIDs, make_strings.
    rewrite run_mbind, range_store by (rewrite length_replicate; lia).
    rewrite take_0, Nat.add_0_l.
    rewrite drop_ge by (rewrite length_replicate; lia).
    rewrite app_nil_l, app_nil_r. simpl. f_equal. by repeat case_match. }
  rewrite Hrange, Hids.
  assert (uses_height_bounds
            (CallGetEvents ctx eventType
               (Sprintf_d startHeight) (Sprintf_d endHeight) []) = true)
    as Hbounds.
  { simpl. destruct (String.eqb_spec (Sprintf_d startHeight) "") as [Hs |];
      [| done].
    by destruct (Sprintf_d_nonempty startHeight). }
  repeat split.
  - repeat constructor. exact Hbounds.
  - by repeat constructor.
  - repeat constructor; simpl.
    apply andb_false_r.
Qed.

Lemma GetEvents_filter_modes_are_separate_witness :
  calls_of (stub None [])
    (GetEventsForHeightRange (E := demo) tt "A.Deposit" 10%N 20%N) 0
    = [CallGetEvents (E := demo) tt "A.Deposit" "10" "20" []]
  ∧ calls_of (stub None [])
      (GetEventsForBlockIDs (E := demo) tt "A.Deposit" [1%N; 2%N]) 0
    = [CallGetEvents (E := demo) tt "A.Deposit" "" "" ["id1"; "id2"]].
Proof.
  destruct (GetEvents_filter_modes_are_separate (E := demo)
              (stub None []) tt "A.Deposit" 10%N 20%N [1%N; 2%N] 0)
    as (Hrange & Hids & _).
  split; [exact Hrange | exact Hids].
Defined.

(** C6.  [SendTransaction] first encodes the transaction.  When
    [convert.TransactionToHTTP] reports an error, that error is returned
    and the handler is not invoked.  Otherwise the handler's submit method
    is invoked exactly once, with the encoded bytes, and the method returns
    the handler's own error value as it is: nil exactly when the handler
    reported nil. *)
Theorem SendTransaction_submits_the_encoding
    {E : Externals} {H : Type} (h : handler H)
    (ctx : context_Context) (tx : flow_Transaction) (s : H)
    (convertedTx : list Byte.byte) (err : error) :
  TransactionToHTTP tx = (convertedTx, err) ->
  (err ≠ None -> run h (SendTransaction ctx tx) s = (Returned err, s, []))
  ∧ (err = None ->
     calls_of h (SendTransaction ctx tx) s
       = [CallSendTransaction ctx convertedTx]
     ∧ state_after h (SendTransaction ctx tx) s
       = (sendTransaction h ctx convertedTx s).2
     ∧ result_of h (SendTransaction ctx tx) s
       = Returned (sendTransaction h ctx convertedTx s).1
     ∧ (result_of h (SendTransaction ctx tx) s = Returned None
        ↔ (sendTransaction h ctx convertedTx s).1 = None)).
Proof.
  intros Hconv. unfold calls_of, state_after, result_of, SendTransaction.
  rewrite Hconv. destruct err as [e |].
  - split; [done |]. intros [=].
  - split; [done |]. intros _. simpl. repeat split; try done.
    + by intros [= ->].
    + by intros ->.
Qed.

Lemma SendTransaction_submits_the_encoding_witness :
  run (stub None []) (SendTransaction (E := demo) tt "") 0
    = (Returned (Some "empty transaction"), 0, [])
  ∧ calls_of (stub (Some "503") []) (SendTransaction (E := demo) tt "abc") 0
    = [CallSendTransaction (E := demo) tt [Byte.x61; Byte.x62; Byte.x63]]
  ∧ result_of (stub (Some "503") []) (SendTransaction (E := demo) tt "abc") 0
    = Returned (Some "503")
  ∧ result_of (stub None []) (SendTransaction (E := demo) tt "abc") 0
    = Returned None.
Proof.
  destruct (SendTransaction_submits_the_encoding (E := demo)
              (stub None []) tt "" 0 [] (Some "empty transaction") eq_refl)
    as (Hfail & _).
  destruct (SendTransaction_submits_the_encoding (E := demo)
              (stub (Some "503") []) tt "abc" 0
              [Byte.x61; Byte.x62; Byte.x63] None eq_refl)
    as (_ & Hdown).
  destruct (SendTransaction_submits_the_encoding (E := demo)
              (stub None []) tt "abc" 0
              [Byte.x61; Byte.x62; Byte.x63] None eq_refl)
    as (_ & Hup).
  destruct (Hdown eq_refl) as (Hcalls & _ & Hres & _).
  destruct (Hup eq_refl) as (_ & _ & _ & Hnil).
  split; [by apply Hfail |].
  split; [exact Hcalls |].
  split; [exact Hres | by apply Hnil].
Defined.

(** C7.  [GetTransaction] and [GetTransactionResult] each invoke the
    handler's transaction method exactly once with the string encoding of
    the identifier; the invocations differ in the include-result flag only
    ([false] and [true]).  On a reply without error the first converts the
    wire transaction itself, the second converts its [Result] field; on a
    reply with an error both return that error next to nil. *)
Theorem GetTransaction_and_Result_differ_in_flag_and_part
    {E : Externals} {H : Type} (h : handler H)
    (ctx : context_Context) (ID : flow_Identifier) (s : H) :
  calls_of h (GetTransaction ctx ID) s
    = [CallGetTransaction ctx (Identifier_String ID) false]
  ∧ calls_of h (GetTransactionResult ctx ID) s
    = [CallGetTransaction ctx (Identifier_String ID) true]
  ∧ (∀ tx s',
       getTransaction h ctx (Identifier_String ID) false s = ((tx, None), s') ->
       result_of h (GetTransaction ctx ID) s = Returned (HTTPToTransaction tx))
  ∧ (∀ t s',
       getTransaction h ctx (Identifier_String ID) true s
         = ((Some t, None), s') ->
       result_of h (GetTransactionResult ctx ID) s
         = Returned (HTTPToTransactionResult (Result t)))
  ∧ (∀ tx e s',
       getTransaction h ctx (Identifier_String ID) false s
         = ((tx, Some e), s') ->
       result_of h (GetTransaction ctx ID) s = Returned (None, Some e))
  ∧ (∀ tx e s',
       getTransaction h ctx (Identifier_String ID) true s
         = ((tx, Some e), s') ->
       result_of h (GetTransactionResult ctx ID) s = Returned (None, Some e)).
Proof.
  unfold calls_of, result_of. simpl.
  destruct (getTransaction h ctx (Identifier_String ID) false s)
    as [[tx1 err1] s1].
  destruct (getTransaction h ctx (Identifier_String ID) true s)
    as [[tx2 err2] s2].
  simpl.
  split; [by destruct err1 |].
  split; [destruct err2; [done | by destruct tx2] |].
  split; [| split; [| split]]; by intros * [= -> -> ->].
Qed.

Lemma GetTransaction_and_Result_differ_in_flag_and_part_witness :
  result_of (stub None []) (GetTransaction (E := demo) tt 3%N) 0
    = Returned (Some "tx", None)
  ∧ result_of (stub None []) (GetTransactionResult (E := demo) tt 3%N) 0
    = Returned (Some 4%N, None)
  ∧ result_of (stub (Some "503") []) (GetTransactionResult (E := demo) tt 3%N) 0
    = Returned (None, Some "503").
Proof.
  destruct (GetTransaction_and_Result_differ_in_flag_and_part (E := demo)
              (stub None []) tt 3%N 0) as (_ & _ & Htx & Hres & _).
  destruct (GetTransaction_and_Result_differ_in_flag_and_part (E := demo)
              (stub (Some "503") []) tt 3%N 0) as (_ & _ & _ & _ & _ & Herr).
  split; [exact (Htx (Some ("tx", None)) 1 eq_refl) |].
  split; [exact (Hres ("tx", Some 4%N) 1 eq_refl) |].
  exact (Herr (Some ("tx", Some 4%N)) "503" 1 eq_refl).
Defined.

(** C9.  [GetAccount] invokes the handler's account method with the string
    encoding of the address and the height "sealed";
    [GetAccountAtBlockHeight] invokes it with the string encoding of the
    address and the decimal numeral of the block height.  On a reply
    without error either method returns what [convert.HTTPToAccount] makes
    of the wire account. *)
Theorem GetAccount_height_is_sealed_or_decimal
    {E : Externals} {H : Type} (h : handler H)
    (ctx : context_Context) (address : flow_Address) (blockHeight : N)
    (s : H) :
  calls_of h (GetAccount ctx address) s
    = [CallGetAccount ctx (Address_String address) "sealed"]
  ∧ calls_of h (GetAccountAtBlockHeight ctx address blockHeight) s
    = [CallGetAccount ctx (Address_String address) (Sprintf_d blockHeight)]
  ∧ (∀ account s',
       getAccount h ctx (Address_String address) "sealed" s
         = ((account, None), s') ->
       result_of h (GetAccount ctx address) s
         = Returned (HTTPToAccount account))
  ∧ (∀ account s',
       getAccount h ctx (Address_String address) (Sprintf_d blockHeight) s
         = ((account, None), s') ->
       result_of h (GetAccountAtBlockHeight ctx address blockHeight) s
         = Returned (HTTPToAccount account)).
Proof.
  unfold calls_of, result_of, GetAccount, GetAccountAtBlockHeight,
    SEALED_HEIGHT. simpl.
  split; [f_equal; by repeat case_match |].
  split; [f_equal; by repeat case_match |].
  split; intros account s' Hreply; by rewrite Hreply.
Qed.

Lemma GetAccount_height_is_sealed_or_decimal_witness :
  calls_of (stub None []) (GetAccountAtBlockHeight (E := demo) tt 1%N 77%N) 0
    = [CallGetAccount (E := demo) tt "0x1" "77"]
  ∧ result_of (stub None []) (GetAccount (E := demo) tt 1%N) 0
    = Returned (Some 1000%N, None)
  ∧ result_of (stub None []) (GetAccountAtBlockHeight (E := demo) tt 1%N 77%N) 0
    = Returned (Some 1000%N, None).
Proof.
  destruct (GetAccount_height_is_sealed_or_decimal (E := demo)
              (stub None []) tt 1%N 77%N 0) as (_ & Hcalls & Hsealed & Hat).
  split; [exact Hcalls |].
  split; [exact (Hsealed (Some 1000%N) 1 eq_refl) |].
  exact (Hat (Some 1000%N) 1 eq_refl).
Defined.

(** The body shared by the three header methods, over any block method. *)
Lemma header_of_block_method {E : Externals} {H : Type} (h : handler H)
    (bm : prog (ptr flow_Block * error)) (s : H) :
  returns_header_of h
    ('(block, err) ← bm;
     match err with
     | Some _ => Ret (None, err)
     | None => b ← deref block; Ret (Some (BlockHeader b), None)
     end)
    bm s.
Proof.
  unfold returns_header_of. rewrite run_mbind.
  split; [| split].
  - intros b s' log Hbm. by apply run_bind_pure with (a := (Some b, None)).
  - intros block e s' log Hbm.
    by apply run_bind_pure with (a := (block, Some e)).
  - intros msg s' log Hbm. by apply run_bind_panic.
Qed.

(** The one case the relation leaves open: a block method that returns
    neither a block nor an error makes the shared body dereference nil. *)
Lemma header_of_nil_block {E : Externals} {H : Type} (h : handler H)
    (bm : prog (ptr flow_Block * error)) (s s' : H) (log : list call) :
  run h bm s = (Returned (None, None), s', log) ->
  run h
    ('(block, err) ← bm;
     match err with
     | Some _ => Ret (None, err)
     | None => b ← deref block; Ret (Some (BlockHeader b), None)
     end) s
  = (Panicked nil_dereference, s', log).
Proof.
  intros Hbm. rewrite run_mbind.
  by apply run_bind_panic_after with (a := (None, None)).
Qed.

(** C10.  Each header method returns the [BlockHeader] field of the block
    its full-block method returns, and fails exactly as that method fails,
    with the same handler invocations and final handler state;
    [GetAccountAtLatestBlock] behaves exactly as [GetAccount]. *)
Theorem header_methods_follow_block_methods
    {E : Externals} {H : Type} (h : handler H)
    (ctx : context_Context) (isSealed : bool) (blockID : flow_Identifier)
    (height : N) (address : flow_Address) (s : H) :
  returns_header_of h
    (GetLatestBlockHeader ctx isSealed) (GetLatestBlock ctx isSealed) s
  ∧ returns_header_of h
      (GetBlockHeaderByID ctx blockID) (GetBlockByID ctx blockID) s
  ∧ returns_header_of h
      (GetBlockHeaderByHeight ctx height) (GetBlockByHeight ctx height) s
  ∧ run h (GetAccountAtLatestBlock ctx address) s
    = run h (GetAccount ctx address) s.
Proof.
  split; [apply header_of_block_method |].
  split; [apply header_of_block_method |].
  split; [apply header_of_block_method | done].
Qed.

Lemma header_methods_follow_block_methods_witness :
  run (stub None [Some 9%N; None]) (GetLatestBlockHeader (E := demo) tt true) 0
    = (Returned (Some 9%N, None), 1,
       [CallGetBlockByHeight (E := demo) tt "sealed"])
  ∧ run (stub (Some "503") []) (GetBlockHeaderByID (E := demo) tt 5%N) 0
    = (Returned (None, Some "503"), 1,
       [CallGetBlockByID (E := demo) tt "id5"])
  ∧ run (stub None []) (GetBlockHeaderByHeight (E := demo) tt 12%N) 0
    = (Panicked "runtime error: index out of range [0] with length 0", 1,
       [CallGetBlockByHeight (E := demo) tt "12"]).
Proof.
  destruct (header_methods_follow_block_methods (E := demo)
              (stub None [Some 9%N; None]) tt true 5%N 12%N 1%N 0)
    as ((Hlatest & _ & _) & _).
  destruct (header_methods_follow_block_methods (E := demo)
              (stub (Some "503") []) tt true 5%N 12%N 1%N 0)
    as (_ & (_ & Hid & _) & _).
  destruct (header_methods_follow_block_methods (E := demo)
              (stub None []) tt true 5%N 12%N 1%N 0)
    as (_ & _ & (_ & _ & Hheight) & _).
  split; [exact (Hlatest (9%N, []) 1 _ eq_refl) |].
  split; [exact (Hid None "503" 1 _ eq_refl) |].
  exact (Hheight _ 1 _ eq_refl).
Defined.

(** * Further properties of the client *)

(** ** Decimal numerals are digit strings *)

Lemma pretty_N_char_digit (x : N) : is_digit (pretty_N_char x) = true.
Proof. unfold pretty_N_char. by repeat case_match. Qed.

Lemma pretty_N_go_digits (x : N) (s : string) :
  all_digits s = true -> all_digits (pretty_N_go x s) = true.
Proof.
  revert s. induction (N.lt_wf_0 x) as [x _ IH]. intros s Hs.
  destruct (decide (x = 0%N)) as [-> | Hx].
  - by rewrite pretty_N_go_0.
  - rewrite pretty_N_go_step by lia.
    apply IH; [apply N.div_lt; lia |].
    simpl. by rewrite pretty_N_char_digit, Hs.
Qed.

Lemma Sprintf_d_digits (n : N) : all_digits (Sprintf_d n) = true.
Proof.
  unfold Sprintf_d, pretty, pretty_N. case_decide; [done |].
  by apply pretty_N_go_digits.
Qed.

Lemma Sprintf_d_not_sealed (n : N) : Sprintf_d n ≠ SEALED_HEIGHT.
Proof.
  intros Heq. pose proof (Sprintf_d_digits n) as Hd.
  rewrite Heq in Hd. discriminate Hd.
Qed.

(** ** Counting and inspecting invocations *)

Section Invocations.

Context {E : Externals} {H : Type} (h : handler H).

Lemma calls_within_run {A} (n : nat) (P : call -> Prop) (m : prog A) :
  calls_within n P m ->
  ∀ s, length (calls_of h m s) <= n ∧ Forall P (calls_of h m s).
Proof.
  unfold calls_of. revert n.
  induction m as [a | msg | q k IH]; intros n Hm s; simpl.
  - split; [lia | constructor].
  - split; [lia | constructor].
  - destruct n as [| n]; [done |]. destruct Hm as [Hq Hk].
    destruct (IH (serve h q s).1 n (Hk _) (serve h q s).2) as [Hlen Hall].
    split; [lia | by constructor].
Qed.

(** A step after [m] that never invokes the handler leaves the handler
    state and the invocations of [m] as they are. *)
Lemma run_bind_silent {A B} (m : prog A) (f : A -> prog B) (s : H) :
  (∀ a, calls_within 0 (fun _ => True) (f a)) ->
  state_after h (bind m f) s = state_after h m s
  ∧ calls_of h (bind m f) s = calls_of h m s.
Proof.
  intros Hf. unfold state_after, calls_of. rewrite run_bind.
  destruct (run h m s) as [[[a | msg] s'] log]; simpl; [| done].
  specialize (Hf a). destruct (f a); simpl in *; [| | done];
    by rewrite app_nil_r.
Qed.

End Invocations.

(** ** Blocks by height, collections *)

(** X1.  [GetBlockByHeight] invokes the handler's by-height method exactly
    once, with the decimal numeral of the height, and leaves the handler in
    the state that invocation left it.  With no error and a first element
    in the sequence, it returns what [convert.HTTPToBlock] makes of the
    first element; later elements play no part. *)
Theorem GetBlockByHeight_decimal_then_first_block
    {E : Externals} {H : Type} (h : handler H)
    (ctx : context_Context) (height : N) (s : H)
    (blocks : list (ptr models_Block)) (err : error) (s' : H) :
  getBlockByHeight h ctx (Sprintf_d height) s = ((blocks, err), s') ->
  calls_of h (GetBlockByHeight ctx height) s
    = [CallGetBlockByHeight ctx (Sprintf_d height)]
  ∧ state_after h (GetBlockByHeight ctx height) s = s'
  ∧ (∀ b rest, err = None -> blocks = b :: rest ->
       result_of h (GetBlockByHeight ctx height) s = Returned (HTTPToBlock b)).
Proof.
  intros Hreply. unfold calls_of, state_after, result_of. simpl.
  rewrite Hreply. simpl.
  destruct err as [e |]; [done |].
  destruct blocks as [| b0 blocks]; simpl; [done |].
  repeat split; try done. by intros b rest _ [= -> _].
Qed.

Lemma GetBlockByHeight_decimal_then_first_block_witness :
  calls_of (stub None [Some 9%N; Some 8%N])
    (GetBlockByHeight (E := demo) tt 12%N) 0
    = [CallGetBlockByHeight (E := demo) tt "12"]
  ∧ result_of (stub None [Some 9%N; Some 8%N])
      (GetBlockByHeight (E := demo) tt 12%N) 0
    = Returned (Some (9%N, []), None).
Proof.
  destruct (GetBlockByHeight_decimal_then_first_block (E := demo)
              (stub None [Some 9%N; Some 8%N]) tt 12%N 0
              [Some 9%N; Some 8%N] None 1 eq_refl) as (Hcalls & _ & Hfirst).
  split; [exact Hcalls |].
  exact (Hfirst (Some 9%N) [Some 8%N] eq_refl eq_refl).
Defined.

(** X2.  In both by-height methods the error test comes before the
    indexing: when the handler reports an error, that error is returned
    next to a nil block whatever the sequence is, an empty one included,
    and nothing panics. *)
Theorem by_height_error_precedes_indexing
    {E : Externals} {H : Type} (h : handler H)
    (ctx : context_Context) (isSealed : bool) (height : N) (s : H)
    (e : error_value) :
  ((getBlockByHeight h ctx (SealedToHTTP isSealed) s).1.2 = Some e ->
   result_of h (GetLatestBlock ctx isSealed) s = Returned (None, Some e))
  ∧ ((getBlockByHeight h ctx (Sprintf_d height) s).1.2 = Some e ->
     result_of h (GetBlockByHeight ctx height) s = Returned (None, Some e)).
Proof.
  unfold result_of. simpl.
  split; intros Herr.
  - destruct (getBlockByHeight h ctx (SealedToHTTP isSealed) s)
      as [[blocks err] s']. simpl in *. by subst err.
  - destruct (getBlockByHeight h ctx (Sprintf_d height) s)
      as [[blocks err] s']. simpl in *. by subst err.
Qed.

Lemma by_height_error_precedes_indexing_witness :
  result_of (stub (Some "503") []) (GetLatestBlock (E := demo) tt true) 0
    = Returned (None, Some "503")
  ∧ result_of (stub (Some "503") []) (GetBlockByHeight (E := demo) tt 12%N) 0
    = Returned (None, Some "503").
Proof.
  destruct (by_height_error_precedes_indexing (E := demo)
              (stub (Some "503") []) tt true 12%N 0 "503")
    as (Hlatest & Hheight).
  split; [exact (Hlatest eq_refl) | exact (Hheight eq_refl)].
Defined.

(** X3.  [GetCollection] invokes the handler's collection method exactly
    once, with the string encoding of the identifier.  A handler error is
    returned as it is next to a nil collection; without error the method
    returns [convert.HTTPToCollection] of the wire collection and a nil
    error, the conversion having no way to fail. *)
Theorem GetCollection_one_call_then_convert
    {E : Externals} {H : Type} (h : handler H)
    (ctx : context_Context) (ID : flow_Identifier) (s : H)
    (collection : ptr models_Collection) (err : error) (s' : H) :
  getCollection h ctx (Identifier_String ID) s = ((collection, err), s') ->
  calls_of h (GetCollection ctx ID) s
    = [CallGetCollection ctx (Identifier_String ID)]
  ∧ state_after h (GetCollection ctx ID) s = s'
  ∧ (err = None ->
     result_of h (GetCollection ctx ID) s
       = Returned (HTTPToCollection collection, None))
  ∧ (err ≠ None ->
     result_of h (GetCollection ctx ID) s = Returned (None, err)).
Proof.
  intros Hreply. unfold calls_of, state_after, result_of. simpl.
  rewrite Hreply. simpl. by destruct err.
Qed.

Lemma GetCollection_one_call_then_convert_witness :
  calls_of (stub None []) (GetCollection (E := demo) tt 5%N) 0
    = [CallGetCollection (E := demo) tt "id5"]
  ∧ result_of (stub None []) (GetCollection (E := demo) tt 5%N) 0
    = Returned (Some [1%N; 2%N], None)
  ∧ result_of (stub (Some "404") []) (GetCollection (E := demo) tt 5%N) 0
    = Returned (None, Some "404").
Proof.
  destruct (GetCollection_one_call_then_convert (E := demo)
              (stub None []) tt 5%N 0 (Some [1%N; 2%N]) None 1 eq_refl)
    as (Hcalls & _ & Hok & _).
  destruct (GetCollection_one_call_then_convert (E := demo)
              (stub (Some "404") []) tt 5%N 0 (Some [1%N; 2%N]) (Some "404") 1
              eq_refl)
    as (_ & _ & _ & Herr).
  split; [exact Hcalls |].
  split; [exact (Hok eq_refl) | by apply Herr].
Defined.

(** ** Block headers *)

Lemma header_step_silent {E : Externals} (r : ptr flow_Block * error) :
  calls_within 0 (fun _ => True) (header_step r).
Proof. by destruct r as [[b |] [e |]]. Qed.

Lemma header_step_value_xor_error {E : Externals}
    (r : ptr flow_Block * error) (hr : ptr flow_BlockHeader * error) :
  header_step r = Ret hr -> value_xor_error hr.
Proof.
  unfold value_xor_error.
  destruct r as [[b |] [e |]]; simpl; intros [= <-]; simpl; eauto.
Qed.

(** X4.  A header method uses the handler exactly as its block method
    does, whatever the handler replies: one invocation, the same one, and
    the same handler state afterwards. *)
Theorem header_methods_make_the_block_call
    {E : Externals} {H : Type} (h : handler H)
    (ctx : context_Context) (isSealed : bool) (blockID : flow_Identifier)
    (height : N) (s : H) :
  (calls_of h (GetLatestBlockHeader ctx isSealed) s
     = [CallGetBlockByHeight ctx (SealedToHTTP isSealed)]
   ∧ state_after h (GetLatestBlockHeader ctx isSealed) s
     = state_after h (GetLatestBlock ctx isSealed) s)
  ∧ (calls_of h (GetBlockHeaderByID ctx blockID) s
       = [CallGetBlockByID ctx (Identifier_String blockID)]
     ∧ state_after h (GetBlockHeaderByID ctx blockID) s
       = state_after h (GetBlockByID ctx blockID) s)
  ∧ (calls_of h (GetBlockHeaderByHeight ctx height) s
       = [CallGetBlockByHeight ctx (Sprintf_d height)]
     ∧ state_after h (GetBlockHeaderByHeight ctx height) s
       = state_after h (GetBlockByHeight ctx height) s).
Proof.
  split; [| split].
  - destruct (run_bind_silent h (GetLatestBlock ctx isSealed) header_step s
                header_step_silent) as [Hstate Hcalls].
    split; [| exact Hstate].
    etrans; [exact Hcalls |]. unfold calls_of. simpl. f_equal.
    repeat case_match; try done. unfold index. by case_match.
  - destruct (run_bind_silent h (GetBlockByID ctx blockID) header_step s
                header_step_silent) as [Hstate Hcalls].
    split; [| exact Hstate].
    etrans; [exact Hcalls |]. unfold calls_of. simpl. f_equal.
    by repeat case_match.
  - destruct (run_bind_silent h (GetBlockByHeight ctx height) header_step s
                header_step_silent) as [Hstate Hcalls].
    split; [| exact Hstate].
    etrans; [exact Hcalls |]. unfold calls_of. simpl. f_equal.
    repeat case_match; try done. unfold index. by case_match.
Qed.

Lemma bind_header_step_result {E : Externals} {H : Type} (h : handler H)
    (bm : prog (ptr flow_Block * error)) (s : H)
    (r : ptr flow_BlockHeader * error) :
  result_of h (bind bm header_step) s = Returned r -> value_xor_error r.
Proof.
  unfold result_of. rewrite run_bind.
  destruct (run h bm s) as [[[a | msg] s'] log]; simpl; [| done].
  destruct (header_step a) as [hr | msg | q k] eqn:Hstep; simpl.
  - intros [= <-]. by eapply header_step_value_xor_error.
  - done.
  - by pose proof (header_step_silent a) as Hsilent; rewrite Hstep in Hsilent.
Qed.

(** X5.  Whatever the handler and the block conversion do, a header method
    that returns at all returns either a header and a nil error, or a nil
    header and an error: never both, never neither. *)
Theorem header_methods_return_header_xor_error
    {E : Externals} {H : Type} (h : handler H)
    (ctx : context_Context) (isSealed : bool) (blockID : flow_Identifier)
    (height : N) (s : H) (r : ptr flow_BlockHeader * error) :
  result_of h (GetLatestBlockHeader ctx isSealed) s = Returned r
  ∨ result_of h (GetBlockHeaderByID ctx blockID) s = Returned r
  ∨ result_of h (GetBlockHeaderByHeight ctx height) s = Returned r ->
  value_xor_error r.
Proof.
  intros [Hr | [Hr | Hr]]; by eapply bind_header_step_result.
Qed.

Lemma header_methods_return_header_xor_error_witness :
  value_xor_error (E := demo) (Some 9%N, None)
  ∧ value_xor_error (E := demo) (A := N) (None, Some "503").
Proof.
  split.
  - apply (header_methods_return_header_xor_error (E := demo)
             (stub None [Some 9%N]) tt true 5%N 12%N 0).
    left. reflexivity.
  - apply (header_methods_return_header_xor_error (E := demo)
             (stub (Some "503") []) tt true 5%N 12%N 0).
    right. left. reflexivity.
Defined.

(** X6.  [GetBlockHeaderByID] from the handler's reply to the header: a
    handler error is returned as it is; a conversion error of the block is
    returned as it is, with a nil header even when the conversion also
    produced a block; a converted block yields its [BlockHeader] field. *)
Theorem GetBlockHeaderByID_end_to_end
    {E : Externals} {H : Type} (h : handler H)
    (ctx : context_Context) (blockID : flow_Identifier) (s : H)
    (block : ptr models_Block) (err : error) (s' : H) :
  getBlockByID h ctx (Identifier_String blockID) s = ((block, err), s') ->
  (err ≠ None ->
   result_of h (GetBlockHeaderByID ctx blockID) s = Returned (None, err))
  ∧ (∀ blk, err = None -> HTTPToBlock block = (Some blk, None) ->
       result_of h (GetBlockHeaderByID ctx blockID) s
         = Returned (Some (BlockHeader blk), None))
  ∧ (∀ x e, err = None -> HTTPToBlock block = (x, Some e) ->
       result_of h (GetBlockHeaderByID ctx blockID) s
         = Returned (None, Some e)).
Proof.
  intros Hreply. unfold result_of. simpl. rewrite Hreply. simpl.
  destruct err as [e0 |]; simpl.
  - by repeat split.
  - split; [done |]. split.
    + intros blk _ Hconv. by rewrite Hconv.
    + intros x e _ Hconv. by rewrite Hconv.
Qed.

Lemma GetBlockHeaderByID_end_to_end_witness :
  result_of (stub None []) (GetBlockHeaderByID (E := demo) tt 5%N) 0
    = Returned (Some 7%N, None)
  ∧ result_of (stub (Some "503") []) (GetBlockHeaderByID (E := demo) tt 5%N) 0
    = Returned (None, Some "503").
Proof.
  destruct (GetBlockHeaderByID_end_to_end (E := demo)
              (stub None []) tt 5%N 0 (Some 7%N) None 1 eq_refl)
    as (_ & Hok & _).
  destruct (GetBlockHeaderByID_end_to_end (E := demo)
              (stub (Some "503") []) tt 5%N 0 (Some 7%N) (Some "503") 1 eq_refl)
    as (Herr & _).
  split; [exact (Hok (7%N, []) eq_refl eq_refl) | by apply Herr].
Defined.

(** The two by-height header methods share their text up to the height
    string. *)
Lemma header_by_height {E : Externals} {H : Type} (h : handler H)
    (ctx : context_Context) (ht : string) (s : H) :
  header_of_first_block h ctx ht
    (bind ('(blocks, err) ← invoke (CallGetBlockByHeight ctx ht);
           match err with
           | Some _ => Ret (None, err)
           | None => b ← index blocks 0; Ret (HTTPToBlock b)
           end)
       header_step) s.
Proof.
  unfold header_of_first_block, result_of. simpl.
  destruct (getBlockByHeight h ctx ht s) as [[blocks err] s']. simpl.
  split; [| split; [| split]].
  - by intros e ->.
  - by intros [= -> ->].
  - intros b rest blk [= -> ->] Hconv. simpl. by rewrite Hconv.
  - intros b rest x e [= -> ->] Hconv. simpl. by rewrite Hconv.
Qed.

(** X7.  [GetLatestBlockHeader] and [GetBlockHeaderByHeight] from the
    handler's reply to the header: a handler error is returned as it is;
    an empty sequence without error ends in the index panic of the block
    method; otherwise only the first block counts, and it yields its
    [BlockHeader] field or the error of its conversion. *)
Theorem by_height_header_methods_end_to_end
    {E : Externals} {H : Type} (h : handler H)
    (ctx : context_Context) (isSealed : bool) (height : N) (s : H) :
  header_of_first_block h ctx (SealedToHTTP isSealed)
    (GetLatestBlockHeader ctx isSealed) s
  ∧ header_of_first_block h ctx (Sprintf_d height)
      (GetBlockHeaderByHeight ctx height) s.
Proof. split; apply header_by_height. Qed.

Lemma by_height_header_methods_end_to_end_witness :
  result_of (stub None []) (GetLatestBlockHeader (E := demo) tt true) 0
    = Panicked "runtime error: index out of range [0] with length 0"
  ∧ result_of (stub None [Some 9%N; None])
      (GetBlockHeaderByHeight (E := demo) tt 12%N) 0
    = Returned (Some 9%N, None)
  ∧ result_of (stub None [None; Some 9%N])
      (GetBlockHeaderByHeight (E := demo) tt 12%N) 0
    = Returned (None, Some "nil block").
Proof.
  destruct (by_height_header_methods_end_to_end (E := demo)
              (stub None []) tt true 12%N 0) as ((_ & Hempty & _) & _).
  destruct (by_height_header_methods_end_to_end (E := demo)
              (stub None [Some 9%N; None]) tt true 12%N 0)
    as (_ & (_ & _ & Hfirst & _)).
  destruct (by_height_header_methods_end_to_end (E := demo)
              (stub None [None; Some 9%N]) tt true 12%N 0)
    as (_ & (_ & _ & _ & Hconv)).
  split; [exact (Hempty eq_refl) |].
  split; [exact (Hfirst (Some 9%N) [None] (9%N, []) eq_refl eq_refl) |].
  exact (Hconv None [Some 9%N] None "nil block" eq_refl eq_refl).
Defined.

(** ** Transactions *)

(** X8.  A handler that answers the transaction query with a nil
    transaction and a nil error: [GetTransaction] hands the nil pointer to
    [convert.HTTPToTransaction] and returns its results, whereas
    [GetTransactionResult] reads the field [Result] through the nil
    pointer and panics, after its one invocation. *)
Theorem transaction_methods_on_nil_transaction
    {E : Externals} {H : Type} (h : handler H)
    (ctx : context_Context) (ID : flow_Identifier) (s : H) :
  (∀ s', getTransaction h ctx (Identifier_String ID) false s
           = ((None, None), s') ->
         run h (GetTransaction ctx ID) s
         = (Returned (HTTPToTransaction None), s',
            [CallGetTransaction ctx (Identifier_String ID) false]))
  ∧ (∀ s', getTransaction h ctx (Identifier_String ID) true s
             = ((None, None), s') ->
           run h (GetTransactionResult ctx ID) s
           = (Panicked nil_dereference, s',
              [CallGetTransaction ctx (Identifier_String ID) true])).
Proof.
  split; intros s' Hreply; simpl; by rewrite Hreply.
Qed.

Lemma transaction_methods_on_nil_transaction_witness :
  run stub_nil_transaction (GetTransaction (E := demo) tt 3%N) 0
    = (Returned (None, Some "nil transaction"), 1,
       [CallGetTransaction (E := demo) tt "id3" false])
  ∧ run stub_nil_transaction (GetTransactionResult (E := demo) tt 3%N) 0
    = (Panicked
         "runtime error: invalid memory address or nil pointer dereference",
       1, [CallGetTransaction (E := demo) tt "id3" true]).
Proof.
  destruct (transaction_methods_on_nil_transaction (E := demo)
              stub_nil_transaction tt 3%N 0) as (Htx & Hres).
  split; [exact (Htx 1 eq_refl) | exact (Hres 1 eq_refl)].
Defined.

(** ** Scripts, accounts and events: conversion or propagation *)

(** X9.  Once the arguments are encoded, each script method passes the
    handler's string through [convert.HTTPToCadenceValue] when the handler
    reports no error, and returns the handler's error next to a nil value
    when it does; the handler state is the one the invocation left. *)
Theorem ExecuteScript_converts_or_propagates
    {E : Externals} {H : Type} (h : handler H)
    (ctx : context_Context) (height : N) (blockID : flow_Identifier)
    (script : list Byte.byte) (arguments : list cadence_Value) (s : H)
    (args : list string) :
  CadenceArgsToHTTP arguments = (args, None) ->
  converts_or_propagates h
    (ExecuteScriptAtBlockHeight ctx height script arguments) s
    HTTPToCadenceValue None
    (executeScriptAtBlockHeight h ctx (Sprintf_d height)
       (ScriptToHTTP script) args s)
  ∧ converts_or_propagates h
      (ExecuteScriptAtLatestBlock ctx script arguments) s
      HTTPToCadenceValue None
      (executeScriptAtBlockHeight h ctx SEALED_HEIGHT
         (ScriptToHTTP script) args s)
  ∧ converts_or_propagates h
      (ExecuteScriptAtBlockID ctx blockID script arguments) s
      HTTPToCadenceValue None
      (executeScriptAtBlockID h ctx (Identifier_String blockID)
         (ScriptToHTTP script) args s).
Proof.
  intros Hargs.
  unfold converts_or_propagates, state_after, result_of,
    ExecuteScriptAtBlockHeight, ExecuteScriptAtLatestBlock,
    ExecuteScriptAtBlockID.
  rewrite Hargs. simpl.
  split; [| split].
  - destruct (executeScriptAtBlockHeight h ctx (Sprintf_d height) _ _ s)
      as [[result [e |]] s']; by simpl.
  - destruct (executeScriptAtBlockHeight h ctx SEALED_HEIGHT _ _ s)
      as [[result [e |]] s']; by simpl.
  - destruct (executeScriptAtBlockID h ctx _ _ _ s)
      as [[result [e |]] s']; by simpl.
Qed.

Lemma ExecuteScript_converts_or_propagates_witness :
  result_of (stub None [])
    (ExecuteScriptAtBlockHeight (E := demo) tt 3%N [] [1%N; 30%N]) 0
    = Returned (Some 2%N, None)
  ∧ result_of (stub (Some "503") [])
      (ExecuteScriptAtBlockID (E := demo) tt 5%N [] [1%N; 30%N]) 0
    = Returned (None, Some "503").
Proof.
  destruct (ExecuteScript_converts_or_propagates (E := demo)
              (stub None []) tt 3%N 5%N [] [1%N; 30%N] 0 ["1"; "30"] eq_refl)
    as ((_ & Hok & _) & _).
  destruct (ExecuteScript_converts_or_propagates (E := demo)
              (stub (Some "503") []) tt 3%N 5%N [] [1%N; 30%N] 0 ["1"; "30"]
              eq_refl)
    as (_ & _ & (_ & _ & Herr)).
  split; [exact (Hok eq_refl) | by apply Herr].
Defined.

(** X12.  Both event methods pass the handler's block events through
    [convert.HTTPToBlockEvents] when the handler reports no error, and
    return the handler's error next to a nil slice when it does. *)
Theorem GetEvents_converts_or_propagates
    {E : Externals} {H : Type} (h : handler H)
    (ctx : context_Context) (eventType : string)
    (startHeight endHeight : N) (blockIDs : list flow_Identifier) (s : H) :
  converts_or_propagates h
    (GetEventsForHeightRange ctx eventType startHeight endHeight) s
    HTTPToBlockEvents []
    (getEvents h ctx eventType
       (Sprintf_d startHeight) (Sprintf_d endHeight) [] s)
  ∧ converts_or_propagates h
      (GetEventsForBlockIDs ctx eventType blockIDs) s
      HTTPToBlockEvents []
      (getEvents h ctx eventType "" "" (Identifier_String <$> blockIDs) s).
Proof.
  unfold converts_or_propagates, state_after, result_of. split.
  - simpl.
    destruct (getEvents h ctx eventType _ _ [] s) as [[events [e |]] s'];
      by simpl.
  - unfold GetEventsForBlockIDs, make_strings.
    rewrite run_mbind, range_store by (rewrite length_replicate; lia).
    rewrite take_0, Nat.add_0_l.
    rewrite drop_ge by (rewrite length_replicate; lia).
    rewrite app_nil_l, app_nil_r. simpl.
    destruct (getEvents h ctx eventType "" "" _ s) as [[events [e |]] s'];
      by simpl.
Qed.

(** X14.  The three account methods pass the handler's account through
    [convert.HTTPToAccount] when the handler reports no error, and return
    the handler's error next to a nil account when it does;
    [GetAccountAtLatestBlock] queries the sealed height. *)
Theorem GetAccount_converts_or_propagates
    {E : Externals} {H : Type} (h : handler H)
    (ctx : context_Context) (address : flow_Address) (blockHeight : N)
    (s : H) :
  converts_or_propagates h (GetAccount ctx address) s HTTPToAccount None
    (getAccount h ctx (Address_String address) SEALED_HEIGHT s)
  ∧ converts_or_propagates h (GetAccountAtLatestBlock ctx address) s
      HTTPToAccount None
      (getAccount h ctx (Address_String address) SEALED_HEIGHT s)
  ∧ converts_or_propagates h
      (GetAccountAtBlockHeight ctx address blockHeight) s HTTPToAccount None
      (getAccount h ctx (Address_String address) (Sprintf_d blockHeight) s).
Proof.
  unfold converts_or_propagates, state_after, result_of,
    GetAccountAtLatestBlock. simpl.
  split; [| split].
  - destruct (getAccount h ctx _ SEALED_HEIGHT s) as [[account [e |]] s'];
      by simpl.
  - destruct (getAccount h ctx _ SEALED_HEIGHT s) as [[account [e |]] s'];
      by simpl.
  - destruct (getAccount h ctx _ (Sprintf_d blockHeight) s)
      as [[account [e |]] s']; by simpl.
Qed.

Lemma GetEvents_converts_or_propagates_witness :
  result_of (stub None [])
    (GetEventsForBlockIDs (E := demo) tt "A.Deposit" [1%N; 2%N]) 0
    = Returned ([(5%N, ["A.Deposit"])], None)
  ∧ result_of (stub (Some "503") [])
      (GetEventsForHeightRange (E := demo) tt "A.Deposit" 10%N 20%N) 0
    = Returned ([], Some "503").
Proof.
  destruct (GetEvents_converts_or_propagates (E := demo)
              (stub None []) tt "A.Deposit" 10%N 20%N [1%N; 2%N] 0)
    as (_ & (_ & Hok & _)).
  destruct (GetEvents_converts_or_propagates (E := demo)
              (stub (Some "503") []) tt "A.Deposit" 10%N 20%N [1%N; 2%N] 0)
    as ((_ & _ & Herr) & _).
  split; [exact (Hok eq_refl) | by apply Herr].
Defined.

Lemma GetAccount_converts_or_propagates_witness :
  result_of (stub None []) (GetAccountAtLatestBlock (E := demo) tt 1%N) 0
    = Returned (Some 1000%N, None)
  ∧ result_of (stub (Some "503") [])
      (GetAccountAtBlockHeight (E := demo) tt 1%N 77%N) 0
    = Returned (None, Some "503").
Proof.
  destruct (GetAccount_converts_or_propagates (E := demo)
              (stub None []) tt 1%N 77%N 0) as (_ & (_ & Hok & _) & _).
  destruct (GetAccount_converts_or_propagates (E := demo)
              (stub (Some "503") []) tt 1%N 77%N 0)
    as (_ & _ & (_ & _ & Herr)).
  split; [exact (Hok eq_refl) | by apply Herr].
Defined.

(** ** Heights on the wire *)

Section Heights.

Context {E : Externals} {H : Type} (h : handler H).

Lemma calls_GetBlockByHeight ctx height s :
  calls_of h (GetBlockByHeight ctx height) s
  = [CallGetBlockByHeight ctx (Sprintf_d height)].
Proof.
  unfold calls_of. simpl. f_equal.
  repeat case_match; try done. unfold index. by case_match.
Qed.

Lemma calls_GetAccountAtBlockHeight ctx address blockHeight s :
  calls_of h (GetAccountAtBlockHeight ctx address blockHeight) s
  = [CallGetAccount ctx (Address_String address) (Sprintf_d blockHeight)].
Proof. unfold calls_of. simpl. f_equal. by repeat case_match. Qed.

Lemma calls_GetAccount ctx address s :
  calls_of h (GetAccount ctx address) s
  = [CallGetAccount ctx (Address_String address) SEALED_HEIGHT].
Proof. unfold calls_of. simpl. f_equal. by repeat case_match. Qed.

Lemma calls_GetEventsForHeightRange ctx eventType startHeight endHeight s :
  calls_of h (GetEventsForHeightRange ctx eventType startHeight endHeight) s
  = [CallGetEvents ctx eventType
       (Sprintf_d startHeight) (Sprintf_d endHeight) []].
Proof. unfold calls_of. simpl. f_equal. by repeat case_match. Qed.


Lemma calls_ExecuteScriptAtBlockHeight ctx height script arguments s :
  calls_of h (ExecuteScriptAtBlockHeight ctx height script arguments) s
  = match (CadenceArgsToHTTP arguments).2 with
    | Some _ => []
    | None =>
        [CallExecuteScriptAtBlockHeight ctx (Sprintf_d height)
           (ScriptToHTTP script) (CadenceArgsToHTTP arguments).1]
    end.
Proof.
  unfold calls_of, ExecuteScriptAtBlockHeight.
  destruct (CadenceArgsToHTTP arguments) as [args [e |]]; simpl; [done |].
  f_equal. by repeat case_match.
Qed.

Lemma calls_ExecuteScriptAtLatestBlock ctx script arguments s :
  calls_of h (ExecuteScriptAtLatestBlock ctx script arguments) s
  = match (CadenceArgsToHTTP arguments).2 with
    | Some _ => []
    | None =>
        [CallExecuteScriptAtBlockHeight ctx SEALED_HEIGHT
           (ScriptToHTTP script) (CadenceArgsToHTTP arguments).1]
    end.
Proof.
  unfold calls_of, ExecuteScriptAtLatestBlock.
  destruct (CadenceArgsToHTTP arguments) as [args [e |]]; simpl; [done |].
  f_equal. by repeat case_match.
Qed.

End Heights.

(** X10.  A numeric height is never sent as the sealed sentinel.  In every
    handler invocation made by [GetBlockByHeight],
    [GetAccountAtBlockHeight] and [ExecuteScriptAtBlockHeight] the height
    argument is a string of decimal digits, hence not "sealed"; in every
    invocation made by [GetAccount] and [ExecuteScriptAtLatestBlock] it is
    "sealed". *)
Theorem numeric_height_is_never_the_sentinel
    {E : Externals} {H : Type} (h : handler H)
    (ctx : context_Context) (height : N) (address : flow_Address)
    (script : list Byte.byte) (arguments : list cadence_Value) (s : H) :
  Forall (fun q => ∃ ht, height_of q = Some ht ∧ all_digits ht = true
                         ∧ ht ≠ SEALED_HEIGHT)
    (calls_of h (GetBlockByHeight ctx height) s
     ++ calls_of h (GetAccountAtBlockHeight ctx address height) s
     ++ calls_of h (ExecuteScriptAtBlockHeight ctx height script arguments) s)
  ∧ Forall (fun q => height_of q = Some SEALED_HEIGHT)
      (calls_of h (GetAccount ctx address) s
       ++ calls_of h (ExecuteScriptAtLatestBlock ctx script arguments) s).
Proof.
  rewrite calls_GetBlockByHeight, calls_GetAccountAtBlockHeight,
    calls_ExecuteScriptAtBlockHeight, calls_GetAccount,
    calls_ExecuteScriptAtLatestBlock.
  assert (∃ ht, Some (Sprintf_d height) = Some ht ∧ all_digits ht = true
                ∧ ht ≠ SEALED_HEIGHT) as Hdec.
  { exists (Sprintf_d height).
    split; [done |]. split; [apply Sprintf_d_digits |].
    apply Sprintf_d_not_sealed. }
  split.
  - destruct (CadenceArgsToHTTP arguments).2; simpl; by repeat constructor.
  - destruct (CadenceArgsToHTTP arguments).2; simpl; by repeat constructor.
Qed.

(** X11.  Different heights are never conflated on the wire: two
    different heights make [GetBlockByHeight] and [GetAccountAtBlockHeight]
    issue different invocations, and a height range that differs in its
    start or in its end makes [GetEventsForHeightRange] issue a different
    invocation, whatever the handlers, states and other arguments. *)
Theorem different_heights_give_different_invocations
    {E : Externals} {H : Type} (h h' : handler H)
    (ctx ctx' : context_Context) (address address' : flow_Address)
    (eventType eventType' : string) (other other' : N) (s s' : H)
    (height height' : N) :
  height ≠ height' ->
  calls_of h (GetBlockByHeight ctx height) s
    ≠ calls_of h' (GetBlockByHeight ctx' height') s'
  ∧ calls_of h (GetAccountAtBlockHeight ctx address height) s
    ≠ calls_of h' (GetAccountAtBlockHeight ctx' address' height') s'
  ∧ calls_of h (GetEventsForHeightRange ctx eventType height other) s
    ≠ calls_of h' (GetEventsForHeightRange ctx' eventType' height' other') s'
  ∧ calls_of h (GetEventsForHeightRange ctx eventType other height) s
    ≠ calls_of h' (GetEventsForHeightRange ctx' eventType' other' height') s'.
Proof.
  intros Hne.
  rewrite !calls_GetBlockByHeight, !calls_GetAccountAtBlockHeight,
    !calls_GetEventsForHeightRange.
  repeat split; intros [= ]; by apply Hne, Sprintf_d_inj.
Qed.

Lemma different_heights_give_different_invocations_witness :
  calls_of (stub None []) (GetBlockByHeight (E := demo) tt 9%N) 0
    ≠ calls_of (stub None []) (GetBlockByHeight (E := demo) tt 10%N) 0.
Proof.
  destruct (different_heights_give_different_invocations (E := demo)
              (stub None []) (stub None []) tt tt 1%N 1%N "A" "A" 0%N 0%N 0 0
              9%N 10%N) as (Hblocks & _).
  - discriminate.
  - exact Hblocks.
Defined.



(** ** One invocation, one method, the caller's context *)

Section Routing.

Context {E : Externals}.

Lemma calls_within_bind_silent {A B} (n : nat) (P : call -> Prop)
    (m : prog A) (f : A -> prog B) :
  calls_within n P m ->
  (∀ a, calls_within 0 P (f a)) ->
  calls_within n P (bind m f).
Proof.
  revert n. induction m as [a | msg | q k IH]; intros n Hm Hf; simpl.
  - specialize (Hf a). destruct (f a); simpl in *; [done | done |].
    by destruct n.
  - done.
  - destruct n as [| n]; simpl in *; [done |]. destruct Hm as [Hq Hk].
    split; [done |]. intros r. by apply IH.
Qed.

Lemma header_step_within (P : call -> Prop) (r : ptr flow_Block * error) :
  calls_within 0 P (header_step r).
Proof. by destruct r as [[b |] [e |]]. Qed.

Lemma routed_of_within {H A} (h : handler H) (ctx : context_Context)
    (meth : handler_method) (m : prog A) (s : H) :
  calls_within 1 (fun q => method_of q = meth ∧ ctx_of q = ctx) m ->
  routed h ctx meth m s.
Proof. intros Hm. by apply calls_within_run. Qed.

End Routing.

(** Closes the [calls_within] goal of a method body that invokes the
    handler once and then only returns or panics. *)
Ltac one_call :=
  simpl; split; [done |]; intros [? [? |]]; simpl; try done;
  repeat (unfold index, deref; case_match; simpl; try done).

(** X15.  Every method of [Client] invokes the handler at most once, on
    the one handler method that belongs to it, and passes on the context it
    was given: no retry, no second query, no other endpoint. *)
Theorem every_method_is_routed_once
    {E : Externals} {H : Type} (h : handler H)
    (ctx : context_Context) (isSealed : bool) (ID : flow_Identifier)
    (height endHeight : N) (address : flow_Address) (tx : flow_Transaction)
    (script : list Byte.byte) (arguments : list cadence_Value)
    (eventType : string) (blockIDs : list flow_Identifier) (s : H) :
  (routed h ctx M_getBlockByID (GetBlockByID ctx ID) s
   ∧ routed h ctx M_getBlockByID (GetBlockHeaderByID ctx ID) s)
  ∧ (routed h ctx M_getBlockByHeight (GetLatestBlock ctx isSealed) s
     ∧ routed h ctx M_getBlockByHeight (GetLatestBlockHeader ctx isSealed) s
     ∧ routed h ctx M_getBlockByHeight (GetBlockByHeight ctx height) s
     ∧ routed h ctx M_getBlockByHeight (GetBlockHeaderByHeight ctx height) s)
  ∧ routed h ctx M_getCollection (GetCollection ctx ID) s
  ∧ routed h ctx M_sendTransaction (SendTransaction ctx tx) s
  ∧ (routed h ctx M_getTransaction (GetTransaction ctx ID) s
     ∧ routed h ctx M_getTransaction (GetTransactionResult ctx ID) s)
  ∧ (routed h ctx M_getAccount (GetAccount ctx address) s
     ∧ routed h ctx M_getAccount (GetAccountAtLatestBlock ctx address) s
     ∧ routed h ctx M_getAccount
         (GetAccountAtBlockHeight ctx address height) s)
  ∧ (routed h ctx M_executeScriptAtBlockHeight
       (ExecuteScriptAtLatestBlock ctx script arguments) s
     ∧ routed h ctx M_executeScriptAtBlockHeight
         (ExecuteScriptAtBlockHeight ctx height script arguments) s
     ∧ routed h ctx M_executeScriptAtBlockID
         (ExecuteScriptAtBlockID ctx ID script arguments) s)
  ∧ (routed h ctx M_getEvents
       (GetEventsForHeightRange ctx eventType height endHeight) s
     ∧ routed h ctx M_getEvents
         (GetEventsForBlockIDs ctx eventType blockIDs) s).
Proof.
  assert (∀ ht,
            calls_within 1
              (fun q => method_of q = M_getBlockByHeight ∧ ctx_of q = ctx)
              ('(blocks, err) ← invoke (CallGetBlockByHeight ctx ht);
               match err with
               | Some _ => Ret (None, err)
               | None => b ← index blocks 0; Ret (HTTPToBlock b)
               end)) as Hheight by (intros ht; one_call).
  assert (calls_within 1
            (fun q => method_of q = M_getBlockByID ∧ ctx_of q = ctx)
            (GetBlockByID ctx ID)) as Hid by one_call.
  repeat match goal with |- _ ∧ _ => split end; apply routed_of_within;
    try exact Hid; try apply Hheight;
    try (apply calls_within_bind_silent;
         [exact Hid || apply Hheight | apply header_step_within]).
  - one_call.
  - unfold SendTransaction. destruct (TransactionToHTTP tx) as [b [e |]];
      by simpl.
  - one_call.
  - one_call.
  - one_call.
  - one_call.
  - one_call.
  - unfold ExecuteScriptAtLatestBlock.
    destruct (CadenceArgsToHTTP arguments) as [a [e |]]; [done | one_call].
  - unfold ExecuteScriptAtBlockHeight.
    destruct (CadenceArgsToHTTP arguments) as [a [e |]]; [done | one_call].
  - unfold ExecuteScriptAtBlockID.
    destruct (CadenceArgsToHTTP arguments) as [a [e |]]; [done | one_call].
  - one_call.
  - unfold GetEventsForBlockIDs, make_strings.
    rewrite range_store by (rewrite length_replicate; lia). one_call.
Qed.

(** ** Construction *)

(** The text the four constructors share, over the results of
    [newHandler]. *)
Lemma construction_body {E : Externals} {I : Type} (r : I * error) :
  let c := let '(httpHandler, err) := r in
           match err with
           | Some _ => (None, err)
           | None => (NewClient httpHandler, None)
           end in
  built_from r c ∧ value_xor_error c.
Proof.
  unfold built_from, value_xor_error, NewClient.
  destruct r as [httpHandler [e |]]; simpl.
  - split; [by split | eauto].
  - split; [by split | eauto].
Qed.

(** X16.  Each of the four constructors asks [newHandler] for a handler at
    the address of its network (the empty address for the canary network),
    with debugging off except where the emulator constructor is told
    otherwise.  It returns a nil client and [newHandler]'s error when there
    is one, and otherwise a client holding exactly that handler; so
    exactly one of client and error is nil. *)
Theorem default_clients_are_built_from_newHandler
    {E : Externals} {I : Type} (newHandler : string -> bool -> I * error)
    (debug : bool) :
  (built_from (newHandler "http://127.0.0.1:8888/v1" debug)
     (NewDefaultEmulatorClient newHandler debug)
   ∧ built_from (newHandler "https://rest-testnet.onflow.org/v1/" false)
       (NewDefaultTestnetClient newHandler)
   ∧ built_from (newHandler "" false) (NewDefaultCanaryClient newHandler)
   ∧ built_from (newHandler "https://rest-mainnet.onflow.org/v1/" false)
       (NewDefaultMainnetClient newHandler))
  ∧ Forall value_xor_error
      [NewDefaultEmulatorClient newHandler debug;
       NewDefaultTestnetClient newHandler;
       NewDefaultCanaryClient newHandler;
       NewDefaultMainnetClient newHandler].
Proof.
  split.
  - repeat match goal with |- _ ∧ _ => split end;
      exact (proj1 (construction_body (newHandler _ _))).
  - repeat (constructor;
            [exact (proj2 (construction_body (newHandler _ _))) |]).
    constructor.
Qed.

Lemma default_clients_are_built_from_newHandler_witness :
  NewDefaultCanaryClient demo_newHandler = (None, Some "empty base URL")
  ∧ NewDefaultEmulatorClient demo_newHandler true
    = (Some {| Client_handler := ("http://127.0.0.1:8888/v1", true) |}, None).
Proof.
  destruct (default_clients_are_built_from_newHandler (E := demo)
              demo_newHandler true)
    as ((Hemulator & _ & Hcanary & _) & _).
  destruct Hcanary as (Hfail & _). destruct Hemulator as (_ & Hok).
  split; [by apply Hfail | exact (Hok eq_refl)].
Defined.
